(** * ag-kernel: the deterministic execution kernel (core/engine.c)

    A shallow embedding of the C kernel of the backtester and the
    statements of its specification that were checked against it.

    Conventions of the embedding.

    - [int64_t] values are integers in [Z]; arithmetic that can leave the
      64-bit range is written with its two's-complement wrap-around
      ([Int64.wrap]).  Signed overflow and [llabs(INT64_MIN)] are undefined
      in C; the wrap-around is what the usual targets compute, and every
      statement that depends on a result being in range says so.
    - [double] values are IEEE-754 binary64 numbers, represented by
      [spec_float] with precision 53 and maximal exponent 1024; the four
      operations round to nearest, ties to even, as the C operators do in
      the default rounding mode, each operation rounding on its own (no
      multiplication is fused with an addition).
    - The handle is passed explicitly: a function that mutates [*h] returns
      the new handle, next to its return code when it has one
      ([execute_fill] always returns 0, which is dropped).  The guards on
      NULL handles and arguments have no counterpart, a handle and its
      arguments being values here; only [engine_new] keeps its pointer
      argument, as an [option].
    - [orders] is the whole array of [MAX_OPEN_ORDERS] slots, read and
      written by index, and [order_count] the number of slots in use, a
      natural number as it is never negative; the flag [active] is a
      boolean.  An index outside the array reads and writes nothing; no
      handle reached from [engine_new] gets there ([run_well_formed]). *)

From stdpp Require Import base list.
From Stdlib Require Import ZArith Lia.
From Stdlib Require Import Floats.SpecFloat.

Local Open Scope Z_scope.

(** ** 64-bit signed integers *)

Module Int64.

Definition modulus : Z := 2 ^ 64.
Definition min_signed : Z := - 2 ^ 63.
Definition max_signed : Z := 2 ^ 63 - 1.

Definition in_range (z : Z) : Prop := min_signed <= z <= max_signed.

Definition in_rangeb (z : Z) : bool := (min_signed <=? z) && (z <=? max_signed).

(** The representative of [z] modulo [2^64] in the signed range. *)
Definition wrap (z : Z) : Z := (z - min_signed) mod modulus + min_signed.

Definition add (x y : Z) : Z := wrap (x + y).
Definition sub (x y : Z) : Z := wrap (x - y).

(** [llabs] of <stdlib.h>. *)
Definition llabs (x : Z) : Z := wrap (Z.abs x).

End Int64.

(** ** IEEE-754 binary64 *)

Module F64.

Definition double : Type := spec_float.

Definition prec : Z := 53.
Definition emax : Z := 1024.

Definition fadd : double -> double -> double := SFadd prec emax.
Definition fsub : double -> double -> double := SFsub prec emax.
Definition fmul : double -> double -> double := SFmul prec emax.
Definition fdiv : double -> double -> double := SFdiv prec emax.

(** The conversion [(double)z] of an [int64_t]: the nearest double. *)
Definition of_int64 (z : Z) : double := binary_normalize prec emax z 0 false.

(** The literal [0.0]. *)
Definition zero : double := S754_zero false.

(** The signed integer mantissa of a finite number. *)
Definition signed_mantissa (s : bool) (m : positive) : Z :=
  if s then Z.neg m else Z.pos m.

(** [ceil] of <math.h>: the least integral double that is not below [x].
    A number whose exponent is not negative is an integer already;
    otherwise the mantissa is divided by [2^(-e)] rounding up, and a
    result of zero keeps the sign of [x]. *)
Definition ceil (x : double) : double :=
  match x with
  | S754_finite s m e =>
      if 0 <=? e then x
      else
        let z := - ((- signed_mantissa s m) / 2 ^ (- e)) in
        if z =? 0 then S754_zero s else of_int64 z
  | _ => x
  end.

(** The conversion [(int64_t)x]: truncation toward zero.  For a NaN, an
    infinity or a value outside the 64-bit range the conversion is
    undefined in C; the embedding returns what the x86-64 conversion
    instruction does, [INT64_MIN]. *)
Definition to_int64 (x : double) : Z :=
  match x with
  | S754_zero _ => 0
  | S754_finite s m e =>
      let z := if 0 <=? e then signed_mantissa s m * 2 ^ e
               else Z.quot (signed_mantissa s m) (2 ^ (- e)) in
      if Int64.in_rangeb z then z else Int64.min_signed
  | _ => Int64.min_signed
  end.

(** Numbers whose conversion to [int64_t] is defined. *)
Definition int64_convertible (x : double) : bool :=
  match x with
  | S754_zero _ => true
  | S754_finite s m e =>
      Int64.in_rangeb
        (if 0 <=? e then signed_mantissa s m * 2 ^ e
         else Z.quot (signed_mantissa s m) (2 ^ (- e)))
  | _ => false
  end.

End F64.

Export F64.

(** ** core/types.h *)

Inductive side_t : Type := SIDE_BUY | SIDE_SELL.

Record tick_event_t : Type := {
  tick_ts_ms : Z;          (* Timestamp in milliseconds *)
  tick_price_tick : Z;     (* Price in ticks *)
  tick_qty : Z;            (* Quantity *)
  tick_side : side_t       (* Buy or sell side *)
}.

Inductive order_type_t : Type := ORDER_TYPE_LIMIT | ORDER_TYPE_MARKET.

Record order_t : Type := {
  order_id : Z;            (* Unique order identifier (uint64_t) *)
  order_type : order_type_t;
  order_side : side_t;
  order_qty : Z;           (* Quantity, in micro-units *)
  order_price_tick : Z     (* Price in ticks (0 for market orders) *)
}.

Record snapshot_t : Type := {
  snap_ts_ms : Z;
  snap_cash : double;
  snap_position : Z;       (* int64_t position *)
  snap_avg_entry_price : double;
  snap_realized_pnl : double;
  snap_unrealized_pnl : double;
  snap_equity : double
}.

Record config_t : Type := {
  maker_fee_bps : double;
  taker_fee_bps : double;
  spread_bps : double;
  initial_cash : double;
  tick_size : double
}.

(** ** core/engine.c *)

Definition MAX_OPEN_ORDERS : nat := 1024.

Record tracked_order_t : Type := {
  order : order_t;
  active : bool            (* 1 if order is active, 0 if cancelled *)
}.

Record engine_handle_t : Type := {
  config : config_t;
  current_ts_ms : Z;
  cash : double;
  position : Z;            (* Positive = long, negative = short *)
  avg_entry_price : double;
  realized_pnl : double;
  orders : list tracked_order_t;
  order_count : nat;
  last_tick_price : Z
}.

(** Field updates, for the assignments [h->f = v]. *)
Definition set_account (h : engine_handle_t)
    (c : double) (p : Z) (a r : double) : engine_handle_t :=
  {| config := config h; current_ts_ms := current_ts_ms h;
     cash := c; position := p; avg_entry_price := a; realized_pnl := r;
     orders := orders h; order_count := order_count h;
     last_tick_price := last_tick_price h |}.

Definition set_orders (h : engine_handle_t)
    (os : list tracked_order_t) (n : nat) : engine_handle_t :=
  {| config := config h; current_ts_ms := current_ts_ms h;
     cash := cash h; position := position h;
     avg_entry_price := avg_entry_price h; realized_pnl := realized_pnl h;
     orders := os; order_count := n;
     last_tick_price := last_tick_price h |}.

Definition set_clock (h : engine_handle_t) (ts price : Z) : engine_handle_t :=
  {| config := config h; current_ts_ms := ts;
     cash := cash h; position := position h;
     avg_entry_price := avg_entry_price h; realized_pnl := realized_pnl h;
     orders := orders h; order_count := order_count h;
     last_tick_price := price |}.

Definition million : double := of_int64 1000000.
Definition ten_thousand : double := of_int64 10000.

Definition calculate_unrealized_pnl (h : engine_handle_t) : double :=
  if position h =? 0 then zero
  else
    let position_descaled := fdiv (of_int64 (position h)) million in
    let position_value :=
      fmul (fmul position_descaled (of_int64 (last_tick_price h)))
           (tick_size (config h)) in
    let entry_value :=
      fmul (fmul position_descaled (avg_entry_price h)) (tick_size (config h)) in
    fsub position_value entry_value.

Definition calculate_fee (h : engine_handle_t) (notional : double)
    (is_maker : bool) : double :=
  let fee_bps :=
    if is_maker then maker_fee_bps (config h) else taker_fee_bps (config h) in
  fmul notional (fdiv fee_bps ten_thousand).

Definition apply_spread (h : engine_handle_t) (price_tick : Z) (side : side_t) : Z :=
  let spread_multiplier := fdiv (spread_bps (config h)) ten_thousand in
  let spread_ticks := fmul (of_int64 price_tick) spread_multiplier in
  match side with
  | SIDE_BUY => Int64.add price_tick (to_int64 (ceil spread_ticks))
  | SIDE_SELL => Int64.sub price_tick (to_int64 (ceil spread_ticks))
  end.

Definition is_buy (s : side_t) : bool :=
  match s with SIDE_BUY => true | SIDE_SELL => false end.

Definition is_sell (s : side_t) : bool :=
  match s with SIDE_BUY => false | SIDE_SELL => true end.

Definition execute_fill (h : engine_handle_t) (o : order_t)
    (fill_price_tick : Z) : engine_handle_t :=
  let fill_qty := order_qty o in
  let fill_price := fmul (of_int64 fill_price_tick) (tick_size (config h)) in
  let notional := fmul fill_price (fdiv (of_int64 fill_qty) million) in
  let fee := calculate_fee h notional false in
  let old_position := position h in
  let new_position :=
    match order_side o with
    | SIDE_BUY => Int64.add old_position fill_qty
    | SIDE_SELL => Int64.sub old_position fill_qty
    end in
  let cash' :=
    match order_side o with
    | SIDE_BUY => fsub (cash h) (fadd notional fee)
    | SIDE_SELL => fadd (cash h) (fsub notional fee)
    end in
  if old_position =? 0 then
    (* Opening new position *)
    set_account h cash' new_position (of_int64 fill_price_tick) (realized_pnl h)
  else if ((old_position >? 0) && is_buy (order_side o))
          || ((old_position <? 0) && is_sell (order_side o)) then
    (* Adding to position - update average entry price *)
    let old_value := fmul (of_int64 old_position) (avg_entry_price h) in
    let new_value := fmul (of_int64 fill_qty) (of_int64 fill_price_tick) in
    set_account h cash' new_position
      (fdiv (fadd old_value new_value) (of_int64 new_position))
      (realized_pnl h)
  else
    (* Reducing or flipping position - realize PnL *)
    let qty_reducing :=
      if Int64.llabs old_position >=? fill_qty then fill_qty
      else Int64.llabs old_position in
    let qty_reducing_descaled := fdiv (of_int64 qty_reducing) million in
    let exit_value :=
      fmul (fmul qty_reducing_descaled (of_int64 fill_price_tick))
           (tick_size (config h)) in
    let entry_value :=
      fmul (fmul qty_reducing_descaled (avg_entry_price h))
           (tick_size (config h)) in
    let realized' :=
      if old_position >? 0
      then fadd (realized_pnl h) (fsub exit_value entry_value)
      else fadd (realized_pnl h) (fsub entry_value exit_value) in
    let avg' :=
      if negb (new_position =? 0)
         && (((old_position >? 0) && (new_position <? 0))
             || ((old_position <? 0) && (new_position >? 0)))
      then of_int64 fill_price_tick
      else if new_position =? 0 then zero
      else avg_entry_price h in
    set_account h cash' new_position avg' realized'.

Definition should_fill_order (o : order_t) (tick : tick_event_t) : bool :=
  match order_type o with
  | ORDER_TYPE_MARKET => true
  | ORDER_TYPE_LIMIT =>
      match order_side o with
      | SIDE_BUY => tick_price_tick tick <=? order_price_tick o
      | SIDE_SELL => tick_price_tick tick >=? order_price_tick o
      end
  end.

(** What [memset(h, 0, sizeof *h)] leaves in a slot of [orders]. *)
Definition zero_order : order_t :=
  {| order_id := 0; order_type := ORDER_TYPE_LIMIT; order_side := SIDE_BUY;
     order_qty := 0; order_price_tick := 0 |}.

Definition zero_slot : tracked_order_t := {| order := zero_order; active := false |}.

Definition initial_handle (cfg : config_t) : engine_handle_t :=
  {| config := cfg; current_ts_ms := 0; cash := initial_cash cfg;
     position := 0; avg_entry_price := zero; realized_pnl := zero;
     orders := replicate MAX_OPEN_ORDERS zero_slot; order_count := 0;
     last_tick_price := 0 |}.

(** [engine_new]: NULL for a NULL configuration; the allocation is taken
    to succeed. *)
Definition engine_new (cfg : option config_t) : option engine_handle_t :=
  match cfg with
  | None => None
  | Some c => Some (initial_handle c)
  end.

Definition engine_reset (h : engine_handle_t) : engine_handle_t :=
  let cfg := config h in
  initial_handle cfg.

(** Marking slot [i] inactive: [h->orders[i].active = 0]. *)
Definition deactivate (os : list tracked_order_t) (i : nat) : list tracked_order_t :=
  match os !! i with
  | Some t => <[i := {| order := order t; active := false |}]> os
  | None => os
  end.

(** The body of the fill loop of [engine_step_tick] at index [i]. *)
Definition fill_slot (tick : tick_event_t) (i : nat) (h : engine_handle_t)
    : engine_handle_t :=
  match orders h !! i with
  | Some t =>
      if negb (active t) then h
      else if should_fill_order (order t) tick then
        let fill_price_tick :=
          match order_type (order t) with
          | ORDER_TYPE_MARKET =>
              apply_spread h (tick_price_tick tick) (order_side (order t))
          | ORDER_TYPE_LIMIT =>
              apply_spread h (order_price_tick (order t)) (order_side (order t))
          end in
        let h1 := execute_fill h (order t) fill_price_tick in
        set_orders h1 (deactivate (orders h1) i) (order_count h1)
      else h
  | None => h
  end.

(** [for (i = ...; i < h->order_count; i++)], with [n] iterations left. *)
Fixpoint fill_loop (tick : tick_event_t) (n i : nat) (h : engine_handle_t)
    : engine_handle_t :=
  match n with
  | O => h
  | S n' => fill_loop tick n' (S i) (fill_slot tick i h)
  end.

(** The compaction loop: [n] iterations left, the read and write indices
    and the array; returns the final write index and array. *)
Fixpoint compact_loop (n read_idx write_idx : nat) (os : list tracked_order_t)
    : nat * list tracked_order_t :=
  match n with
  | O => (write_idx, os)
  | S n' =>
      match os !! read_idx with
      | Some t =>
          if active t then
            compact_loop n' (S read_idx) (S write_idx)
              (if Nat.eqb write_idx read_idx then os else <[write_idx := t]> os)
          else compact_loop n' (S read_idx) write_idx os
      | None => compact_loop n' (S read_idx) write_idx os
      end
  end.

Definition engine_step_tick (h : engine_handle_t) (tick : tick_event_t)
    : Z * engine_handle_t :=
  let h1 := set_clock h (tick_ts_ms tick) (tick_price_tick tick) in
  (* Check all open orders for fills *)
  let h2 := fill_loop tick (order_count h1) 0 h1 in
  (* Compact the order list (remove inactive orders) *)
  let '(write_idx, os) := compact_loop (order_count h2) 0 0 (orders h2) in
  (0, set_orders h2 os write_idx).

Definition engine_place_order (h : engine_handle_t) (o : order_t)
    : Z * engine_handle_t :=
  if (MAX_OPEN_ORDERS <=? order_count h)%nat then (-2, h)   (* Order book full *)
  else
    (0, set_orders h
          (<[order_count h := {| order := o; active := true |}]> (orders h))
          (S (order_count h))).

(** The search loop of [engine_cancel_order], with [n] iterations left. *)
Fixpoint cancel_loop (id : Z) (n i : nat) (h : engine_handle_t)
    : Z * engine_handle_t :=
  match n with
  | O => (-1, h)                                            (* Order not found *)
  | S n' =>
      match orders h !! i with
      | Some t =>
          if active t && (order_id (order t) =? id) then
            (0, set_orders h (deactivate (orders h) i) (order_count h))
          else cancel_loop id n' (S i) h
      | None => cancel_loop id n' (S i) h
      end
  end.

Definition engine_cancel_order (h : engine_handle_t) (id : Z)
    : Z * engine_handle_t :=
  cancel_loop id (order_count h) 0 h.

Definition engine_get_snapshot (h : engine_handle_t) : snapshot_t :=
  let unrealized := calculate_unrealized_pnl h in
  {| snap_ts_ms := current_ts_ms h;
     snap_cash := cash h;
     snap_position := position h;
     snap_avg_entry_price := avg_entry_price h;
     snap_realized_pnl := realized_pnl h;
     snap_unrealized_pnl := unrealized;
     snap_equity := fadd (cash h) unrealized |}.

Arguments fadd : simpl never.
Arguments fsub : simpl never.
Arguments fmul : simpl never.
Arguments fdiv : simpl never.
Arguments of_int64 : simpl never.
Arguments ceil : simpl never.
Arguments to_int64 : simpl never.
Arguments Int64.wrap : simpl never.
Arguments Int64.add : simpl never.
Arguments Int64.sub : simpl never.
Arguments Int64.llabs : simpl never.

(** ** Operation sequences *)

Inductive operation : Type :=
| OpReset
| OpPlace (o : order_t)
| OpCancel (id : Z)
| OpStep (tick : tick_event_t).

Definition apply_operation (h : engine_handle_t) (op : operation) : engine_handle_t :=
  match op with
  | OpReset => engine_reset h
  | OpPlace o => snd (engine_place_order h o)
  | OpCancel id => snd (engine_cancel_order h id)
  | OpStep tick => snd (engine_step_tick h tick)
  end.

Definition run (ops : list operation) (h : engine_handle_t) : engine_handle_t :=
  fold_left apply_operation ops h.

(** The slots in use, and among them the orders that are still live. *)
Definition used_slots (h : engine_handle_t) : list tracked_order_t :=
  take (order_count h) (orders h).

Definition live_orders (h : engine_handle_t) : list tracked_order_t :=
  filter (fun t => active t = true) (used_slots h).

Definition live_count (h : engine_handle_t) : nat := length (live_orders h).

(** The handles the operations keep within: the array has its
    [MAX_OPEN_ORDERS] slots and the count does not exceed them. *)
Definition well_formed (h : engine_handle_t) : Prop :=
  length (orders h) = MAX_OPEN_ORDERS /\ (order_count h <= MAX_OPEN_ORDERS)%nat.

(** ** The statements of the specification, in its own words *)

(** Section 4.5: the signed position delta, [+q] on buy and [-q] on sell. *)
Definition spec_delta (side : side_t) (q : Z) : Z :=
  match side with SIDE_BUY => q | SIDE_SELL => - q end.

(** Section 4.5: [N = p * (q / 1e6)] with [p = p_t * tick_size]. *)
Definition spec_notional (cfg : config_t) (p_t q : Z) : double :=
  fmul (fmul (of_int64 p_t) (tick_size cfg)) (fdiv (of_int64 q) million).

(** Section 4.5: [fee = N * (taker_fee_bps / 10000)]. *)
Definition spec_fee (cfg : config_t) (N : double) : double :=
  fmul N (fdiv (taker_fee_bps cfg) ten_thousand).

(** Section 4.5: the cash update of a buy and of a sell. *)
Definition spec_cash (cfg : config_t) (c : double) (side : side_t) (p_t q : Z)
    : double :=
  let N := spec_notional cfg p_t q in
  let fee := spec_fee cfg N in
  match side with
  | SIDE_BUY => fsub c (fadd N fee)
  | SIDE_SELL => fadd c (fsub N fee)
  end.

(** Section 4.5, case 2: [(old * avg_entry_price + delta * p_t) / new]. *)
Definition spec_weighted_average (old : Z) (avg : double) (delta p_t new : Z)
    : double :=
  fdiv (fadd (fmul (of_int64 old) avg) (fmul (of_int64 delta) (of_int64 p_t)))
       (of_int64 new).

(** Section 4.5, case 3: the gross realization of [r] micro-units at [p_t]
    against the entry price, signed by the side of the old position. *)
Definition spec_realized (cfg : config_t) (old : Z) (avg : double) (r p_t : Z)
    : double :=
  let exit_value := fmul (fmul (fdiv (of_int64 r) million) (of_int64 p_t)) (tick_size cfg) in
  let entry_value := fmul (fmul (fdiv (of_int64 r) million) avg) (tick_size cfg) in
  if 0 <? old then fsub exit_value entry_value else fsub entry_value exit_value.

(** Section 4.6: the unrealized P&L of a non-zero position,
    [(position/1e6) * last_tick_price * tick_size
       - (position/1e6) * avg_entry_price * tick_size]. *)
Definition spec_unrealized (cfg : config_t) (pos : Z) (avg : double) (last : Z)
    : double :=
  fsub (fmul (fmul (fdiv (of_int64 pos) million) (of_int64 last)) (tick_size cfg))
       (fmul (fmul (fdiv (of_int64 pos) million) avg) (tick_size cfg)).

(** Section 4.4: the offset as the specification writes it, on the absolute
    value of the price. *)
Definition spec_offset_ticks (cfg : config_t) (price_tick : Z) : Z :=
  to_int64 (ceil (fmul (of_int64 (Z.abs price_tick))
                       (fdiv (spread_bps cfg) ten_thousand))).

(** The offset the kernel computes, on the signed price. *)
Definition offset_ticks (cfg : config_t) (price_tick : Z) : Z :=
  to_int64 (ceil (fmul (of_int64 price_tick)
                       (fdiv (spread_bps cfg) ten_thousand))).

(** Section 4.3, step 2: fill eligibility of an order at a tick. *)
Definition spec_eligible (o : order_t) (tick : tick_event_t) : bool :=
  match order_type o, order_side o with
  | ORDER_TYPE_MARKET, _ => true
  | ORDER_TYPE_LIMIT, SIDE_BUY => tick_price_tick tick <=? order_price_tick o
  | ORDER_TYPE_LIMIT, SIDE_SELL => order_price_tick o <=? tick_price_tick tick
  end.

(** Section 4.3, step 3: the tick a fill price starts from. *)
Definition spec_fill_base (o : order_t) (tick : tick_event_t) : Z :=
  match order_type o with
  | ORDER_TYPE_MARKET => tick_price_tick tick
  | ORDER_TYPE_LIMIT => order_price_tick o
  end.

(** An order fills at a tick when it is live and eligible. *)
Definition spec_fills (tick : tick_event_t) (t : tracked_order_t) : bool :=
  active t && spec_eligible (order t) tick.

(** Section 4.3, steps 2 to 4 on the account: the orders are taken in
    insertion order and each fill is executed on the state the earlier
    fills left. *)
Definition spec_fill_one (tick : tick_event_t) (h : engine_handle_t)
    (t : tracked_order_t) : engine_handle_t :=
  if spec_fills tick t then
    execute_fill h (order t)
      (apply_spread h (spec_fill_base (order t) tick) (order_side (order t)))
  else h.

Definition spec_scan (tick : tick_event_t) (ts : list tracked_order_t)
    (h : engine_handle_t) : engine_handle_t :=
  fold_left (spec_fill_one tick) ts h.

(** Section 4.3, step 5: the live orders that did not fill, in insertion
    order. *)
Definition spec_survivors (tick : tick_event_t) (ts : list tracked_order_t)
    : list tracked_order_t :=
  filter (fun t => active t = true /\ spec_eligible (order t) tick = false) ts.

(** ** The host surface: [step_tick], [step_batch] and [get_snapshot] *)

(** Modelled from the spec: the failures of section 7 that the tick
    operations of the host wrapper report. *)
Inductive tick_error : Type := invalid_tick | length_mismatch.

(** Modelled from the spec: the public tick of section 6, with its
    real-valued quantity. *)
Record tick : Type := {
  ts_ms : Z;
  price_tick : Z;
  qty : double;
  side : side_t
}.

Definition is_finite (x : double) : bool :=
  match x with
  | S754_zero _ | S754_finite _ _ _ => true
  | _ => false
  end.

(** Modelled from the spec: a quantity in micro-units (section 3), the
    real quantity multiplied by 1,000,000 and truncated toward zero. *)
Definition micro_units (q : double) : Z := to_int64 (fmul q million).

Definition kernel_tick (t : tick) : tick_event_t :=
  {| tick_ts_ms := ts_ms t; tick_price_tick := price_tick t;
     tick_qty := micro_units (qty t); tick_side := side t |}.

(** Modelled from the spec: [step_tick] of the host wrapper, whose source
    (crates/ag-core/src/lib.rs) is not part of the kernel sources.  It
    rejects a tick whose quantity is not finite, leaving the handle as it
    was, and otherwise submits the tick to [engine_step_tick]. *)
Definition step_tick (h : engine_handle_t) (t : tick)
    : option tick_error * engine_handle_t :=
  if is_finite (qty t) then (None, snd (engine_step_tick h (kernel_tick t)))
  else (Some invalid_tick, h).

(** Modelled from the spec: the side encoding in batch form (section 6),
    [0 = buy] and [1 = sell]. *)
Definition decode_side (b : Z) : option side_t :=
  if b =? 0 then Some SIDE_BUY
  else if b =? 1 then Some SIDE_SELL
  else None.

Definition valid_batch_entry (q : double) (b : Z) : bool :=
  is_finite q && match decode_side b with Some _ => true | None => false end.

(** Modelled from the spec: the tick at index [i] of the four sequences
    of [step_batch]. *)
Definition batch_tick (timestamps price_ticks : list Z) (qtys : list double)
    (sides : list Z) (i : nat) : option tick :=
  match timestamps !! i, price_ticks !! i, qtys !! i, sides !! i with
  | Some ts, Some pt, Some q, Some b =>
      match decode_side b with
      | Some s => Some {| ts_ms := ts; price_tick := pt; qty := q; side := s |}
      | None => None
      end
  | _, _, _, _ => None
  end.

(** Modelled from the spec: invoking [step_tick] on each index in order
    (section 4.7), [n] indices from [i]. *)
Fixpoint batch_loop (timestamps price_ticks : list Z) (qtys : list double)
    (sides : list Z) (n i : nat) (h : engine_handle_t) : engine_handle_t :=
  match n with
  | O => h
  | S n' =>
      match batch_tick timestamps price_ticks qtys sides i with
      | Some t =>
          batch_loop timestamps price_ticks qtys sides n' (S i)
            (snd (step_tick h t))
      | None => batch_loop timestamps price_ticks qtys sides n' (S i) h
      end
  end.

(** Modelled from the spec: [step_batch] of the host wrapper (section 4.7),
    whose source (crates/ag-core/src/lib.rs) is not part of the kernel
    sources.  It fails with [length_mismatch] when the four sequences
    differ in length and with [invalid_tick] when an entry has a
    non-finite quantity or a side other than 0 and 1, leaving the handle
    as it was; otherwise it invokes [step_tick] on each index in order. *)
Definition step_batch (h : engine_handle_t) (timestamps price_ticks : list Z)
    (qtys : list double) (sides : list Z) : option tick_error * engine_handle_t :=
  let n := length timestamps in
  if negb ((length price_ticks =? n)%nat && (length qtys =? n)%nat
           && (length sides =? n)%nat)
  then (Some length_mismatch, h)
  else if negb (forallb (fun qb => valid_batch_entry qb.1 qb.2) (zip qtys sides))
  then (Some invalid_tick, h)
  else (None, batch_loop timestamps price_ticks qtys sides n 0 h).

(** [N] successive [step_tick] calls, on the ticks in the order given. *)
Definition step_ticks (h : engine_handle_t) (ts : list tick) : engine_handle_t :=
  fold_left (fun h t => snd (step_tick h t)) ts h.

(** The batch data as a sequence of ticks, index by index. *)
Fixpoint batch_ticks (timestamps price_ticks : list Z) (qtys : list double)
    (sides : list side_t) : list tick :=
  match timestamps, price_ticks, qtys, sides with
  | ts :: timestamps', pt :: price_ticks', q :: qtys', s :: sides' =>
      {| ts_ms := ts; price_tick := pt; qty := q; side := s |}
        :: batch_ticks timestamps' price_ticks' qtys' sides'
  | _, _, _, _ => []
  end.

Definition encode_side (s : side_t) : Z :=
  match s with SIDE_BUY => 0 | SIDE_SELL => 1 end.

(** Modelled from the spec: the public snapshot of section 6, whose
    [position] is a [double] in real units. *)
Record snapshot : Type := {
  snapshot_ts_ms : Z;
  snapshot_cash : double;
  snapshot_position : double;
  snapshot_avg_entry_price : double;
  snapshot_realized_pnl : double;
  snapshot_unrealized_pnl : double;
  snapshot_equity : double
}.

(** Modelled from the spec: [get_snapshot] of the host wrapper (section
    4.6), whose source (crates/ag-core/src/lib.rs) is not part of the
    kernel sources.  It reads the snapshot of [engine_get_snapshot] and
    gives its fields as they are, except the position, which it converts
    to [double] and divides by 1,000,000 (the audit report of the
    repository quotes the line: [snap.position as f64 / 1000000.0]). *)
Definition get_snapshot (h : engine_handle_t) : snapshot :=
  let snap := engine_get_snapshot h in
  {| snapshot_ts_ms := snap_ts_ms snap;
     snapshot_cash := snap_cash snap;
     snapshot_position := fdiv (of_int64 (snap_position snap)) million;
     snapshot_avg_entry_price := snap_avg_entry_price snap;
     snapshot_realized_pnl := snap_realized_pnl snap;
     snapshot_unrealized_pnl := snap_unrealized_pnl snap;
     snapshot_equity := snap_equity snap |}.

(** ** Sample data *)

Definition sample_config : config_t :=
  {| maker_fee_bps := zero; taker_fee_bps := zero; spread_bps := zero;
     initial_cash := of_int64 100000; tick_size := of_int64 1 |}.

Definition market_order (id : Z) (s : side_t) (q : Z) : order_t :=
  {| order_id := id; order_type := ORDER_TYPE_MARKET; order_side := s;
     order_qty := q; order_price_tick := 0 |}.

Definition limit_order (id : Z) (s : side_t) (q p : Z) : order_t :=
  {| order_id := id; order_type := ORDER_TYPE_LIMIT; order_side := s;
     order_qty := q; order_price_tick := p |}.

Definition sample_tick (ts p : Z) : tick_event_t :=
  {| tick_ts_ms := ts; tick_price_tick := p; tick_qty := 1000000;
     tick_side := SIDE_BUY |}.

(** The handle with other fee settings, everything else unchanged. *)
Definition with_fees (h : engine_handle_t) (maker taker : double) : engine_handle_t :=
  {| config := {| maker_fee_bps := maker; taker_fee_bps := taker;
                  spread_bps := spread_bps (config h);
                  initial_cash := initial_cash (config h);
                  tick_size := tick_size (config h) |};
     current_ts_ms := current_ts_ms h; cash := cash h; position := position h;
     avg_entry_price := avg_entry_price h; realized_pnl := realized_pnl h;
     orders := orders h; order_count := order_count h;
     last_tick_price := last_tick_price h |}.

(** A short position of one unit, opened by a market sell at tick 100. *)
Definition short_handle : engine_handle_t :=
  run [OpPlace (market_order 1 SIDE_SELL 1000000); OpStep (sample_tick 1 100)]
      (initial_handle sample_config).

(** A position of 1.5 units bought at tick 100. *)
Definition long_handle : engine_handle_t :=
  run [OpPlace (market_order 1 SIDE_BUY 1500000); OpStep (sample_tick 1 100)]
      (initial_handle sample_config).

(** A configuration that section 4.1 would reject: a negative tick size and
    an infinite initial cash. *)
Definition unchecked_config : config_t :=
  {| maker_fee_bps := zero; taker_fee_bps := zero; spread_bps := S754_nan;
     initial_cash := S754_infinity false; tick_size := of_int64 (-1) |}.

(** Section 4.3, step 4 on the order set: a slot whose order fills is
    marked inactive. *)
Definition mark_filled (tick : tick_event_t) (t : tracked_order_t)
    : tracked_order_t :=
  if spec_fills tick t then {| order := order t; active := false |} else t.

(** A full book of limit buys at tick 50, with the ids 0 to 1023. *)
Definition full_book_ops : list operation :=
  map (fun i => OpPlace (limit_order (Z.of_nat i) SIDE_BUY 1000000 50))
      (seq 0 MAX_OPEN_ORDERS).

Definition full_book : engine_handle_t :=
  run full_book_ops (initial_handle sample_config).

(** The handle with one order placed: a market buy with id 7. *)
Definition one_order_handle : engine_handle_t :=
  (engine_place_order (initial_handle sample_config)
     (market_order 7 SIDE_BUY 1000000)).2.

(** Numbers of the given sign: a zero of either sign and a NaN count for
    both. *)
Definition signed_like (s : bool) (x : double) : bool :=
  match x with
  | S754_zero _ | S754_nan => true
  | S754_finite s' _ _ | S754_infinity s' => Bool.eqb s' s
  end.

Definition is_negative (x : double) : bool :=
  match x with
  | S754_finite s _ _ | S754_infinity s => s
  | _ => false
  end.

(** A configuration with the given spread, in basis points. *)
Definition spread_config (bps : Z) : config_t :=
  {| maker_fee_bps := zero; taker_fee_bps := zero; spread_bps := of_int64 bps;
     initial_cash := of_int64 100000; tick_size := of_int64 1 |}.

(** The scenarios of section 8 of the specification, through the kernel
    operations, with quantities in micro-units. *)
Definition scenario_S1 : engine_handle_t :=
  run [OpPlace (market_order 1 SIDE_BUY 1500000); OpStep (sample_tick 1 100);
       OpPlace (market_order 2 SIDE_SELL 1500000); OpStep (sample_tick 2 110)]
      (initial_handle sample_config).

Definition scenario_S2 : engine_handle_t :=
  run [OpPlace (market_order 1 SIDE_BUY 1000000); OpStep (sample_tick 1 100);
       OpPlace (market_order 2 SIDE_BUY 3000000); OpStep (sample_tick 2 120)]
      (initial_handle sample_config).

Definition scenario_S3 : engine_handle_t :=
  run [OpPlace (market_order 3 SIDE_SELL 6000000); OpStep (sample_tick 3 130)]
      scenario_S2.

Definition scenario_S4 : engine_handle_t :=
  run [OpPlace (market_order 1 SIDE_BUY 1000000); OpStep (sample_tick 1 100);
       OpPlace (market_order 2 SIDE_SELL 1000000); OpStep (sample_tick 2 100)]
      (initial_handle (spread_config 100)).

Definition scenario_S6 (prices : list Z) : engine_handle_t :=
  run (OpPlace (limit_order 1 SIDE_BUY 1000000 100)
         :: map (fun p => OpStep (sample_tick p p)) prices)
      (initial_handle sample_config).

(** ** Further notions for the properties of the kernel *)

(** The list without its first order of the given id. *)
Fixpoint drop_first_with_id (id : Z) (ts : list tracked_order_t)
    : list tracked_order_t :=
  match ts with
  | [] => []
  | t :: ts' =>
      if order_id (order t) =? id then ts' else t :: drop_first_with_id id ts'
  end.

(** The signed quantity an order adds to the position when it fills at a
    tick, and 0 when it does not fill. *)
Definition fill_delta (tick : tick_event_t) (t : tracked_order_t) : Z :=
  if spec_fills tick t
  then spec_delta (order_side (order t)) (order_qty (order t))
  else 0.

Definition total_delta (tick : tick_event_t) (ts : list tracked_order_t) : Z :=
  foldr (fun t acc => fill_delta tick t + acc) 0 ts.

(** An order as it sits in a slot after [engine_place_order]. *)
Definition placed (o : order_t) : tracked_order_t :=
  {| order := o; active := true |}.

(** The successive return codes of [engine_place_order] on a list of
    orders, with the final handle. *)
Fixpoint place_all (h : engine_handle_t) (os : list order_t)
    : list Z * engine_handle_t :=
  match os with
  | [] => ([], h)
  | o :: os' =>
      let r := engine_place_order h o in
      let rs := place_all r.2 os' in
      (r.1 :: rs.1, rs.2)
  end.

(** The quantity held by a list of orders, in micro-units. *)
Definition book_qty (ts : list tracked_order_t) : Z :=
  foldr (fun t acc => order_qty (order t) + acc) 0 ts.

(** The quantity of the orders a sequence of operations places. *)
Definition placed_qty (ops : list operation) : Z :=
  foldr (fun op acc =>
           match op with OpPlace o => order_qty o + acc | _ => acc end) 0 ops.

(** Every order the sequence places has a positive quantity. *)
Definition positive_placements (ops : list operation) : Prop :=
  Forall (fun op => match op with OpPlace o => 0 < order_qty o | _ => True end) ops.

(** What the operations keep under a budget [B] of quantity: the array
    within its bounds, live orders of positive quantity, the position and
    the live quantity together within the budget, and a zero entry price
    on a flat position. *)
Definition kept (B : Z) (h : engine_handle_t) : Prop :=
  well_formed h
  /\ Forall (fun t => 0 < order_qty (order t)) (live_orders h)
  /\ Z.abs (position h) + book_qty (live_orders h) <= B
  /\ (position h = 0 -> avg_entry_price h = zero).

Definition is_zero (x : double) : bool :=
  match x with S754_zero _ => true | _ => false end.

(** A market order placed on a new handle and the tick that fills it. *)
Definition place_and_fill (cfg : config_t) (o : order_t) (tick : tick_event_t)
    : engine_handle_t :=
  run [OpPlace o; OpStep tick] (initial_handle cfg).

(** The side that closes a position opened on [s]. *)
Definition other_side (s : side_t) : side_t :=
  match s with SIDE_BUY => SIDE_SELL | SIDE_SELL => SIDE_BUY end.

(** The value of [q] micro-units at tick [p], as [execute_fill] computes
    the exit and entry values of a realization. *)
Definition value_at (cfg : config_t) (q p : Z) : double :=
  fmul (fmul (fdiv (of_int64 q) million) (of_int64 p)) (tick_size cfg).

(** A market order on a new handle, the tick that fills it, the market
    order of the same quantity on the other side and a second tick. *)
Definition round_trip (cfg : config_t) (id id' : Z) (s : side_t) (q : Z)
    (t t' : tick_event_t) : engine_handle_t :=
  run [OpPlace (market_order id s q); OpStep t;
       OpPlace (market_order id' (other_side s) q); OpStep t']
      (initial_handle cfg).

(** ** Tactics *)

(** Case analysis on the integer comparisons of a goal. *)
Ltac zcase :=
  match goal with
  | |- context [Z.eqb ?a ?b] => destruct (Z.eqb_spec a b)
  | |- context [Z.ltb ?a ?b] => destruct (Z.ltb_spec a b)
  | |- context [Z.gtb ?a ?b] => destruct (Z.gtb_spec a b)
  | |- context [Z.geb ?a ?b] => destruct (Z.geb_spec a b)
  | |- context [Z.leb ?a ?b] => destruct (Z.leb_spec a b)
  end.

Ltac zcases := repeat (zcase; try lia; simpl).

(** Case analysis on the branches of a goal. *)
Ltac branches :=
  repeat match goal with |- context [if ?b then _ else _] => destruct b end.

(** * Properties *)

(** ** Fill execution: cash, fees and position accounting *)

Section Fill.

Variables (h : engine_handle_t) (o : order_t) (p_t : Z).

Lemma execute_fill_config : config (execute_fill h o p_t) = config h.
Proof.
  unfold execute_fill.
  branches; reflexivity.
Qed.

Lemma execute_fill_orders :
  orders (execute_fill h o p_t) = orders h
  /\ order_count (execute_fill h o p_t) = order_count h.
Proof.
  unfold execute_fill.
  branches; split; reflexivity.
Qed.

Lemma execute_fill_clock :
  current_ts_ms (execute_fill h o p_t) = current_ts_ms h
  /\ last_tick_price (execute_fill h o p_t) = last_tick_price h.
Proof.
  unfold execute_fill.
  branches; split; reflexivity.
Qed.

Lemma execute_fill_cash :
  cash (execute_fill h o p_t)
  = spec_cash (config h) (cash h) (order_side o) p_t (order_qty o).
Proof.
  unfold execute_fill, spec_cash, spec_notional, spec_fee, calculate_fee.
  branches; destruct (order_side o); reflexivity.
Qed.

Lemma execute_fill_position :
  position (execute_fill h o p_t)
  = Int64.wrap (position h + spec_delta (order_side o) (order_qty o)).
Proof.
  unfold execute_fill, spec_delta, Int64.add, Int64.sub.
  branches; destruct (order_side o); simpl; f_equal; lia.
Qed.

(** Case 1 of section 4.5: opening. *)
Lemma execute_fill_open :
  position h = 0 ->
  avg_entry_price (execute_fill h o p_t) = of_int64 p_t
  /\ realized_pnl (execute_fill h o p_t) = realized_pnl h.
Proof.
  intros H0. unfold execute_fill. rewrite H0. simpl. split; reflexivity.
Qed.

(** Case 2 of section 4.5 for a long position: the weighted average. *)
Lemma execute_fill_add_long :
  0 < position h -> order_side o = SIDE_BUY ->
  avg_entry_price (execute_fill h o p_t)
  = spec_weighted_average (position h) (avg_entry_price h)
      (spec_delta SIDE_BUY (order_qty o)) p_t
      (position (execute_fill h o p_t))
  /\ realized_pnl (execute_fill h o p_t) = realized_pnl h.
Proof.
  intros Hpos Hside. rewrite execute_fill_position.
  unfold execute_fill, spec_weighted_average. rewrite Hside. simpl.
  destruct (Z.eqb_spec (position h) 0) as [E|_]; [lia|].
  destruct (Z.gtb_spec (position h) 0) as [_|E]; [|lia].
  simpl. unfold Int64.add. split; reflexivity.
Qed.

(** What the kernel stores when a sell adds to a short position: the
    new value enters the sum with the sign of the quantity, not of the
    delta. *)
Lemma execute_fill_add_short :
  position h < 0 -> order_side o = SIDE_SELL ->
  avg_entry_price (execute_fill h o p_t)
  = fdiv (fadd (fmul (of_int64 (position h)) (avg_entry_price h))
               (fmul (of_int64 (order_qty o)) (of_int64 p_t)))
         (of_int64 (position (execute_fill h o p_t)))
  /\ realized_pnl (execute_fill h o p_t) = realized_pnl h.
Proof.
  intros Hpos Hside. rewrite execute_fill_position.
  unfold execute_fill. rewrite Hside. simpl.
  destruct (Z.eqb_spec (position h) 0) as [E|_]; [lia|].
  destruct (Z.gtb_spec (position h) 0) as [E|_]; [lia|].
  destruct (Z.ltb_spec (position h) 0) as [_|E]; [|lia].
  simpl. unfold Int64.sub. split; reflexivity.
Qed.

End Fill.

Lemma wrap_in_range (z : Z) : Int64.in_range z -> Int64.wrap z = z.
Proof.
  unfold Int64.in_range, Int64.wrap, Int64.min_signed, Int64.max_signed, Int64.modulus.
  intros Hz. rewrite Z.mod_small; lia.
Qed.

Lemma wrap_range (z : Z) : Int64.in_range (Int64.wrap z).
Proof.
  unfold Int64.in_range, Int64.wrap, Int64.min_signed, Int64.max_signed, Int64.modulus.
  pose proof (Z.mod_pos_bound (z - - 2 ^ 63) (2 ^ 64)). lia.
Qed.

Lemma in_rangeb_spec (z : Z) : Int64.in_rangeb z = true <-> Int64.in_range z.
Proof.
  unfold Int64.in_rangeb, Int64.in_range.
  rewrite andb_true_iff, !Z.leb_le. reflexivity.
Qed.

Section Reduce.

Variables (h : engine_handle_t) (o : order_t) (p_t : Z).

Local Abbreviation old := (position h).
Local Abbreviation q := (order_qty o).
Local Abbreviation delta := (spec_delta (order_side o) (order_qty o)).

Hypothesis old_range : Int64.min_signed < old <= Int64.max_signed.
Hypothesis q_pos : 0 < q.
Hypothesis opposite :
  (0 < old /\ order_side o = SIDE_SELL) \/ (old < 0 /\ order_side o = SIDE_BUY).

Lemma llabs_old : Int64.llabs old = Z.abs old.
Proof.
  unfold Int64.llabs. apply wrap_in_range.
  unfold Int64.in_range, Int64.min_signed, Int64.max_signed in old_range |- *.
  lia.
Qed.

Lemma new_position_delta :
  match order_side o with
  | SIDE_BUY => Int64.add old q
  | SIDE_SELL => Int64.sub old q
  end = Int64.wrap (old + delta).
Proof.
  unfold spec_delta, Int64.add, Int64.sub.
  destruct (order_side o); f_equal; lia.
Qed.

(** Case 3 of section 4.5: reducing, [|delta| <= |old|]. *)
Lemma execute_fill_reduce :
  q <= Z.abs old ->
  position (execute_fill h o p_t) = old + delta
  /\ realized_pnl (execute_fill h o p_t)
     = fadd (realized_pnl h)
         (spec_realized (config h) old (avg_entry_price h) q p_t)
  /\ avg_entry_price (execute_fill h o p_t)
     = if old + delta =? 0 then zero else avg_entry_price h.
Proof.
  intros Hle.
  assert (Hnew : Int64.wrap (old + delta) = old + delta).
  { apply wrap_in_range.
    unfold Int64.in_range, Int64.min_signed, Int64.max_signed in *.
    unfold spec_delta. destruct opposite as [[? ->]|[? ->]]; lia. }
  split; [rewrite execute_fill_position; exact Hnew|].
  unfold execute_fill, spec_realized.
  rewrite llabs_old, new_position_delta, Hnew.
  unfold spec_delta in *.
  destruct opposite as [[Hs ->]|[Hs ->]]; simpl; zcases; split; reflexivity.
Qed.

(** Case 4 of section 4.5: flipping, [|delta| > |old|]. *)
Lemma execute_fill_flip :
  Z.abs old < q -> Int64.in_range (old + delta) ->
  position (execute_fill h o p_t) = old + delta
  /\ realized_pnl (execute_fill h o p_t)
     = fadd (realized_pnl h)
         (spec_realized (config h) old (avg_entry_price h) (Z.abs old) p_t)
  /\ avg_entry_price (execute_fill h o p_t) = of_int64 p_t.
Proof.
  intros Hlt Hrange.
  assert (Hnew : Int64.wrap (old + delta) = old + delta)
    by (apply wrap_in_range; exact Hrange).
  split; [rewrite execute_fill_position; exact Hnew|].
  unfold execute_fill, spec_realized.
  rewrite llabs_old, new_position_delta, Hnew.
  unfold spec_delta in *.
  destruct opposite as [[Hs ->]|[Hs ->]]; simpl; zcases; split; reflexivity.
Qed.

End Reduce.

(** X1.  The four cases of section 4.5 that the kernel follows, for a positive
    quantity and positions within the 64-bit range: opening, adding to a
    long position, reducing and flipping. *)
Theorem position_accounting_cases (h : engine_handle_t) (o : order_t) (p_t : Z) :
  Int64.min_signed < position h <= Int64.max_signed ->
  0 < order_qty o ->
  Int64.in_range (position h + spec_delta (order_side o) (order_qty o)) ->
  let old := position h in
  let delta := spec_delta (order_side o) (order_qty o) in
  let h' := execute_fill h o p_t in
  position h' = old + delta
  /\ (old = 0 ->
      avg_entry_price h' = of_int64 p_t /\ realized_pnl h' = realized_pnl h)
  /\ (0 < old -> order_side o = SIDE_BUY ->
      avg_entry_price h'
      = spec_weighted_average old (avg_entry_price h) delta p_t (old + delta)
      /\ realized_pnl h' = realized_pnl h)
  /\ ((0 < old /\ order_side o = SIDE_SELL) \/ (old < 0 /\ order_side o = SIDE_BUY) ->
      Z.abs delta <= Z.abs old ->
      realized_pnl h'
      = fadd (realized_pnl h)
          (spec_realized (config h) old (avg_entry_price h) (Z.abs delta) p_t)
      /\ avg_entry_price h' = if old + delta =? 0 then zero else avg_entry_price h)
  /\ ((0 < old /\ order_side o = SIDE_SELL) \/ (old < 0 /\ order_side o = SIDE_BUY) ->
      Z.abs old < Z.abs delta ->
      realized_pnl h'
      = fadd (realized_pnl h)
          (spec_realized (config h) old (avg_entry_price h) (Z.abs old) p_t)
      /\ avg_entry_price h' = of_int64 p_t).
Proof.
  intros Hold Hq Hnew old delta h'. subst h'.
  assert (Hpos : position (execute_fill h o p_t) = old + delta).
  { rewrite execute_fill_position. apply wrap_in_range, Hnew. }
  assert (Habs : Z.abs delta = order_qty o).
  { subst delta. unfold spec_delta. destruct (order_side o); lia. }
  split; [exact Hpos|]. split; [|split; [|split]].
  - intros H0. apply execute_fill_open, H0.
  - intros Hlong Hside.
    destruct (execute_fill_add_long h o p_t Hlong Hside) as [Ha Hr].
    split; [|exact Hr]. rewrite Ha, Hpos.
    subst delta. rewrite Hside. reflexivity.
  - intros Hopp Hle. rewrite Habs in *.
    destruct (execute_fill_reduce h o p_t Hold Hq Hopp Hle) as (_ & Hr & Ha).
    split; [exact Hr|exact Ha].
  - intros Hopp Hlt. rewrite Habs in *.
    destruct (execute_fill_flip h o p_t Hold Hopp Hlt Hnew) as (_ & Hr & Ha).
    split; [exact Hr|exact Ha].
Qed.

Lemma position_accounting_cases_witness :
  Int64.min_signed < position long_handle <= Int64.max_signed
  /\ 0 < order_qty (market_order 2 SIDE_SELL 500000)
  /\ Int64.in_range
       (position long_handle
        + spec_delta (order_side (market_order 2 SIDE_SELL 500000))
            (order_qty (market_order 2 SIDE_SELL 500000)))
  /\ position (execute_fill long_handle (market_order 2 SIDE_SELL 500000) 110)
     = 1500000 + - 500000.
Proof.
  assert (H1 : Int64.min_signed < position long_handle <= Int64.max_signed)
    by (vm_compute; split; [reflexivity|discriminate]).
  assert (H2 : 0 < order_qty (market_order 2 SIDE_SELL 500000)) by reflexivity.
  assert (H3 : Int64.in_range
                 (position long_handle
                  + spec_delta (order_side (market_order 2 SIDE_SELL 500000))
                      (order_qty (market_order 2 SIDE_SELL 500000))))
    by (vm_compute; split; discriminate).
  split; [exact H1|]. split; [exact H2|]. split; [exact H3|].
  exact (proj1 (position_accounting_cases long_handle
                  (market_order 2 SIDE_SELL 500000) 110 H1 H2 H3)).
Defined.

(** X2.  Weighted-average correctness (section 8, property 5): from a flat
    position, two buys of sizes [q1], [q2] at ticks [p1], [p2] leave
    [avg_entry_price = (q1 * p1 + q2 * p2) / (q1 + q2)]. *)
Theorem two_buys_weighted_average (h : engine_handle_t) (o1 o2 : order_t)
    (p1 p2 : Z) :
  position h = 0 ->
  order_side o1 = SIDE_BUY -> order_side o2 = SIDE_BUY ->
  0 < order_qty o1 <= Int64.max_signed ->
  Int64.in_range (order_qty o1 + order_qty o2) ->
  avg_entry_price (execute_fill (execute_fill h o1 p1) o2 p2)
  = fdiv (fadd (fmul (of_int64 (order_qty o1)) (of_int64 p1))
               (fmul (of_int64 (order_qty o2)) (of_int64 p2)))
         (of_int64 (order_qty o1 + order_qty o2))
  /\ position (execute_fill (execute_fill h o1 p1) o2 p2)
     = order_qty o1 + order_qty o2.
Proof.
  intros H0 Hs1 Hs2 Hq1 Hq12.
  assert (Hp1 : position (execute_fill h o1 p1) = order_qty o1).
  { rewrite execute_fill_position, H0, Hs1. simpl. apply wrap_in_range.
    unfold Int64.in_range, Int64.min_signed, Int64.max_signed in *. lia. }
  destruct (execute_fill_open h o1 p1 H0) as [Ha1 _].
  assert (Hlong : 0 < position (execute_fill h o1 p1)) by lia.
  destruct (execute_fill_add_long (execute_fill h o1 p1) o2 p2 Hlong Hs2)
    as [Ha2 _].
  assert (Hp2 : position (execute_fill (execute_fill h o1 p1) o2 p2)
                = order_qty o1 + order_qty o2).
  { rewrite execute_fill_position, Hp1, Hs2. simpl. apply wrap_in_range, Hq12. }
  split; [|exact Hp2].
  rewrite Ha2, Hp2, Hp1, Ha1. reflexivity.
Qed.

Lemma two_buys_weighted_average_witness :
  position (initial_handle sample_config) = 0
  /\ avg_entry_price
       (execute_fill
          (execute_fill (initial_handle sample_config)
             (market_order 1 SIDE_BUY 1000000) 100)
          (market_order 2 SIDE_BUY 3000000) 120)
     = of_int64 115.
Proof.
  split; [reflexivity|].
  assert (H4 : 0 < order_qty (market_order 1 SIDE_BUY 1000000) <= Int64.max_signed)
    by (split; [reflexivity|discriminate]).
  assert (H5 : Int64.in_range
                 (order_qty (market_order 1 SIDE_BUY 1000000)
                  + order_qty (market_order 2 SIDE_BUY 3000000)))
    by (split; discriminate).
  exact (proj1 (two_buys_weighted_average (initial_handle sample_config)
                  (market_order 1 SIDE_BUY 1000000)
                  (market_order 2 SIDE_BUY 3000000) 100 120
                  eq_refl eq_refl eq_refl H4 H5)).
Defined.

(** ** The scenarios of section 8 *)

(** S1, open and close flat: position 0, realized P&L +15, cash and equity
    100015. *)
Example scenario_open_close_flat :
  position scenario_S1 = 0
  /\ realized_pnl scenario_S1 = of_int64 15
  /\ cash scenario_S1 = of_int64 100015
  /\ snap_equity (engine_get_snapshot scenario_S1) = of_int64 100015.
Proof. vm_compute. repeat split; reflexivity. Qed.

(** S2, weighted average: position 4.0 at an average entry of 115. *)
Example scenario_weighted_average :
  position scenario_S2 = 4000000
  /\ avg_entry_price scenario_S2 = of_int64 115.
Proof. vm_compute. repeat split; reflexivity. Qed.

(** S3, position flip: +60 realized on the 4.0 closed, then short 2.0
    entered at 130. *)
Example scenario_position_flip :
  position scenario_S3 = -2000000
  /\ avg_entry_price scenario_S3 = of_int64 130
  /\ realized_pnl scenario_S3 = of_int64 60.
Proof. vm_compute. repeat split; reflexivity. Qed.

(** S4, a spread of 1% charged on both sides: the buy fills at 101 and the
    sell at 99. *)
Example scenario_spread_both_sides :
  apply_spread (initial_handle (spread_config 100)) 100 SIDE_BUY = 101
  /\ apply_spread (initial_handle (spread_config 100)) 100 SIDE_SELL = 99
  /\ cash scenario_S4 = of_int64 (100000 - 2)
  /\ realized_pnl scenario_S4 = of_int64 (-2).
Proof. vm_compute. repeat split; reflexivity. Qed.

(** S6, a buy limit at 100: no fill at 101, a fill at 100, and nothing
    further at 99. *)
Example scenario_limit_trigger :
  position (scenario_S6 [101]) = 0
  /\ live_count (scenario_S6 [101]) = 1%nat
  /\ position (scenario_S6 [101; 100]) = 1000000
  /\ avg_entry_price (scenario_S6 [101; 100]) = of_int64 100
  /\ live_count (scenario_S6 [101; 100]) = 0%nat
  /\ position (scenario_S6 [101; 100; 99]) = 1000000
  /\ cash (scenario_S6 [101; 100; 99]) = cash (scenario_S6 [101; 100]).
Proof. vm_compute. repeat split; reflexivity. Qed.

(** ** C1: position accounting *)

(** C1.  A fill that adds to a short position does not store the weighted
    average of the specification.  From a short position of one unit
    entered at tick 100, a sell of one more unit at tick 120 leaves
    [avg_entry_price = -10], where [(old * avg + delta * p_t) / new] with
    [delta = -q] is 110: the kernel adds [q * p_t] to [old * avg] instead
    of [delta * p_t].  The same happens through the public operations. *)
Theorem add_to_short_average :
  position short_handle = -1000000
  /\ avg_entry_price short_handle = of_int64 100
  /\ avg_entry_price
       (execute_fill short_handle (market_order 2 SIDE_SELL 1000000) 120)
     = of_int64 (-10)
  /\ spec_weighted_average (-1000000) (of_int64 100)
       (spec_delta SIDE_SELL 1000000) 120 (-2000000)
     = of_int64 110
  /\ avg_entry_price
       (run [OpPlace (market_order 2 SIDE_SELL 1000000);
             OpStep (sample_tick 2 120)] short_handle)
     = of_int64 (-10).
Proof. vm_compute. repeat split; reflexivity. Qed.

(** ** C2: notional, fee and cash *)

Lemma execute_fill_with_fees_account (h : engine_handle_t) (o : order_t)
    (p_t : Z) (maker taker : double) :
  realized_pnl (execute_fill (with_fees h maker taker) o p_t)
    = realized_pnl (execute_fill h o p_t)
  /\ position (execute_fill (with_fees h maker taker) o p_t)
    = position (execute_fill h o p_t)
  /\ avg_entry_price (execute_fill (with_fees h maker taker) o p_t)
    = avg_entry_price (execute_fill h o p_t).
Proof.
  unfold execute_fill. simpl.
  branches; repeat split; reflexivity.
Qed.

(** C2.  On every fill the notional is [N = (p_t * tick_size) * (q / 1e6)]
    and the fee [N * (taker_fee_bps / 10000)]; a buy leaves
    [cash - (N + fee)] and a sell [cash + (N - fee)]; the maker rate has no
    effect on the fill, and no fee setting has an effect on the realized
    P&L, the position or the average entry price. *)
Theorem fill_notional_fee_cash (h : engine_handle_t) (o : order_t) (p_t : Z) :
  let N := fmul (fmul (of_int64 p_t) (tick_size (config h)))
                (fdiv (of_int64 (order_qty o)) million) in
  let fee := fmul N (fdiv (taker_fee_bps (config h)) ten_thousand) in
  cash (execute_fill h o p_t)
    = match order_side o with
      | SIDE_BUY => fsub (cash h) (fadd N fee)
      | SIDE_SELL => fadd (cash h) (fsub N fee)
      end
  /\ (forall maker : double,
        execute_fill (with_fees h maker (taker_fee_bps (config h))) o p_t
        = with_fees (execute_fill h o p_t) maker (taker_fee_bps (config h)))
  /\ (forall maker taker : double,
        realized_pnl (execute_fill (with_fees h maker taker) o p_t)
        = realized_pnl (execute_fill h o p_t)).
Proof.
  split; [apply execute_fill_cash|]. split.
  - intros maker. unfold execute_fill, calculate_fee. simpl.
    branches; reflexivity.
  - intros maker taker. apply execute_fill_with_fees_account.
Qed.

(** ** C8: handle creation *)

(** C8, as stated, fails: a configuration with a negative tick size, a NaN
    spread and an infinite initial cash is accepted. *)
Lemma engine_new_accepts_unchecked_config :
  SFltb (tick_size unchecked_config) zero = true
  /\ is_finite (initial_cash unchecked_config) = false
  /\ is_finite (spread_bps unchecked_config) = false
  /\ engine_new (Some unchecked_config) = Some (initial_handle unchecked_config).
Proof. repeat split; reflexivity. Qed.

(** C8, amended.  [engine_new] does not validate the configuration: it
    fails for a NULL configuration only, and for every configuration it
    returns a handle that holds the configuration, with
    [cash = initial_cash], a zero position, entry price, realized P&L,
    timestamp and last tick price, and no order. *)
Theorem engine_new_initial_state (cfg : config_t) :
  engine_new None = None
  /\ exists h : engine_handle_t,
       engine_new (Some cfg) = Some h
       /\ config h = cfg
       /\ cash h = initial_cash cfg
       /\ position h = 0
       /\ avg_entry_price h = zero
       /\ realized_pnl h = zero
       /\ current_ts_ms h = 0
       /\ last_tick_price h = 0
       /\ order_count h = 0%nat
       /\ used_slots h = []
       /\ well_formed h.
Proof.
  split; [reflexivity|]. exists (initial_handle cfg).
  repeat split; try reflexivity.
  unfold MAX_OPEN_ORDERS. simpl. lia.
Qed.

(** ** The loops of [engine_step_tick] *)

Lemma should_fill_order_eligible (o : order_t) (tick : tick_event_t) :
  should_fill_order o tick = spec_eligible o tick.
Proof.
  unfold should_fill_order, spec_eligible.
  destruct (order_type o), (order_side o); try reflexivity.
  apply Z.geb_leb.
Qed.

Lemma spec_fill_one_set_orders (tick : tick_event_t) (h : engine_handle_t)
    (t : tracked_order_t) (os : list tracked_order_t) (n : nat) :
  spec_fill_one tick (set_orders h os n) t = set_orders (spec_fill_one tick h t) os n.
Proof.
  unfold spec_fill_one. destruct (spec_fills tick t); [|reflexivity].
  unfold apply_spread. simpl.
  generalize (spec_fill_base (order t) tick). intros b.
  set (p := match order_side (order t) with
            | SIDE_BUY => _ | SIDE_SELL => _ end).
  clearbody p. unfold execute_fill, calculate_fee. simpl.
  branches; reflexivity.
Qed.

Lemma spec_scan_set_orders (tick : tick_event_t) (ts : list tracked_order_t) :
  forall (h : engine_handle_t) (os : list tracked_order_t) (n : nat),
    spec_scan tick ts (set_orders h os n) = set_orders (spec_scan tick ts h) os n.
Proof.
  unfold spec_scan. induction ts as [|t ts IH]; intros h os n; simpl.
  - reflexivity.
  - rewrite spec_fill_one_set_orders. apply IH.
Qed.

Lemma spec_fill_one_orders (tick : tick_event_t) (h : engine_handle_t)
    (t : tracked_order_t) :
  orders (spec_fill_one tick h t) = orders h
  /\ order_count (spec_fill_one tick h t) = order_count h.
Proof.
  unfold spec_fill_one. destruct (spec_fills tick t); [|split; reflexivity].
  apply execute_fill_orders.
Qed.

Lemma spec_scan_orders (tick : tick_event_t) (ts : list tracked_order_t) :
  forall h : engine_handle_t,
    orders (spec_scan tick ts h) = orders h
    /\ order_count (spec_scan tick ts h) = order_count h.
Proof.
  unfold spec_scan. induction ts as [|t ts IH]; intros h; simpl.
  - split; reflexivity.
  - destruct (IH (spec_fill_one tick h t)) as [-> ->].
    apply spec_fill_one_orders.
Qed.

Lemma set_orders_id (h : engine_handle_t) :
  set_orders h (orders h) (order_count h) = h.
Proof. destruct h; reflexivity. Qed.

Lemma set_orders_twice (h : engine_handle_t) (os os' : list tracked_order_t)
    (n n' : nat) :
  set_orders (set_orders h os n) os' n' = set_orders h os' n'.
Proof. reflexivity. Qed.

(** One iteration of the fill loop, on the account and on the slot. *)
Lemma fill_slot_spec (tick : tick_event_t) (i : nat) (h : engine_handle_t)
    (t : tracked_order_t) :
  orders h !! i = Some t ->
  fill_slot tick i h
  = set_orders (spec_fill_one tick h t)
      (<[i := mark_filled tick t]> (orders h)) (order_count h).
Proof.
  intros Hi. unfold fill_slot, spec_fill_one, mark_filled, spec_fills.
  rewrite Hi, should_fill_order_eligible.
  destruct (active t) eqn:Ha; simpl.
  - destruct (spec_eligible (order t) tick) eqn:He.
    + destruct (execute_fill_orders h (order t)
                  (apply_spread h (spec_fill_base (order t) tick)
                     (order_side (order t)))) as [Ho Hc].
      unfold spec_fill_base in *.
      destruct (order_type (order t)); rewrite Ho, Hc;
        unfold deactivate; rewrite Hi; reflexivity.
    + rewrite list_insert_id by exact Hi. symmetry. apply set_orders_id.
  - rewrite list_insert_id by exact Hi. symmetry. apply set_orders_id.
Qed.

Lemma fill_slot_out_of_range (tick : tick_event_t) (i : nat) (h : engine_handle_t) :
  orders h !! i = None -> fill_slot tick i h = h.
Proof. intros Hi. unfold fill_slot. rewrite Hi. reflexivity. Qed.

(** The fill loop over the slots [i, i + n): the account is the scan of
    those slots in order, and each of them that fills is marked. *)
Lemma fill_loop_spec (tick : tick_event_t) (n : nat) :
  forall (i : nat) (h : engine_handle_t),
    fill_loop tick n i h
    = set_orders (spec_scan tick (take n (drop i (orders h))) h)
        (take i (orders h)
           ++ map (mark_filled tick) (take n (drop i (orders h)))
           ++ drop (i + n) (orders h))
        (order_count h).
Proof.
  induction n as [|n IH]; intros i h.
  - simpl. rewrite Nat.add_0_r, take_drop. symmetry. apply set_orders_id.
  - simpl fill_loop. destruct (orders h !! i) as [t|] eqn:Hi.
    + rewrite IH. rewrite (fill_slot_spec _ _ _ _ Hi). simpl orders. simpl order_count.
      pose proof (lookup_lt_Some _ _ _ Hi) as Hlt.
      rewrite (take_S_r _ _ (mark_filled tick t))
        by (apply list_lookup_insert_eq; exact Hlt).
      rewrite take_insert_ge by lia.
      rewrite !drop_insert_lt by lia.
      rewrite spec_scan_set_orders, set_orders_twice.
      rewrite (drop_S _ _ _ Hi). simpl take. simpl map. unfold spec_scan. simpl fold_left.
      f_equal.
      rewrite <- app_assoc. simpl. rewrite Nat.add_succ_r. reflexivity.
    + rewrite fill_slot_out_of_range by exact Hi. rewrite IH.
      apply lookup_ge_None_1 in Hi.
      rewrite !drop_ge by lia. rewrite !take_nil.
      rewrite !take_ge by lia. reflexivity.
Qed.

(** The compaction loop from read index [r] and write index [w <= r]: the
    slots below the final write index are those below [w] followed by the
    active slots among [r, r + n), in their order. *)
Lemma compact_loop_spec (n : nat) :
  forall (r w : nat) (os : list tracked_order_t),
    (w <= r)%nat ->
    (compact_loop n r w os).1
    = (w + length (filter (fun t => active t = true) (take n (drop r os))))%nat
    /\ take (compact_loop n r w os).1 (compact_loop n r w os).2
       = take w os ++ filter (fun t => active t = true) (take n (drop r os))
    /\ length (compact_loop n r w os).2 = length os.
Proof.
  induction n as [|n IH]; intros r w os Hwr.
  - simpl. rewrite app_nil_r, Nat.add_0_r. done.
  - simpl compact_loop. destruct (os !! r) as [t|] eqn:Hr.
    + pose proof (lookup_lt_Some _ _ _ Hr) as Hlt.
      rewrite (drop_S _ _ _ Hr). simpl take.
      destruct (active t) eqn:Ha.
      * rewrite filter_cons_True by exact Ha.
        set (os1 := if Nat.eqb w r then os else <[w := t]> os).
        assert (Hlen : length os1 = length os).
        { subst os1. destruct (Nat.eqb w r); [done|apply length_insert]. }
        assert (Hdrop : drop (S r) os1 = drop (S r) os).
        { subst os1. destruct (Nat.eqb w r); [done|].
          apply drop_insert_lt. lia. }
        assert (Htake : take (S w) os1 = take w os ++ [t]).
        { subst os1. destruct (Nat.eqb_spec w r) as [->|Hne].
          - apply take_S_r. exact Hr.
          - rewrite (take_S_r _ _ t) by (apply list_lookup_insert_eq; lia).
            rewrite take_insert_ge by lia. done. }
        destruct (IH (S r) (S w) os1) as (H1 & H2 & H3); [lia|].
        rewrite Hdrop in H1, H2. rewrite H1, H3, Hlen.
        split; [simpl; lia|]. split; [|done].
        rewrite <- H1, H2, Htake, <- app_assoc. done.
      * rewrite filter_cons_False by (rewrite Ha; discriminate).
        apply IH. lia.
    + apply lookup_ge_None_1 in Hr.
      destruct (IH (S r) w os) as (H1 & H2 & H3); [lia|].
      rewrite !drop_ge in * by lia. rewrite take_nil in *. done.
Qed.

Lemma take_marked (A : Type) (f : A -> A) (n : nat) (l : list A) :
  take n (map f (take n l) ++ drop n l) = map f (take n l).
Proof.
  rewrite take_app, length_map, length_take.
  rewrite take_ge by (rewrite length_map, length_take; lia).
  destruct (Nat.le_gt_cases n (length l)) as [Hle|Hgt].
  - replace (n - n `min` length l)%nat with 0%nat by lia.
    rewrite take_0, app_nil_r. done.
  - rewrite drop_ge by lia. rewrite take_nil, app_nil_r. done.
Qed.

Lemma filter_mark_filled (tick : tick_event_t) (ts : list tracked_order_t) :
  filter (fun t => active t = true) (map (mark_filled tick) ts)
  = spec_survivors tick ts.
Proof.
  unfold spec_survivors. induction ts as [|t ts IH]; [done|].
  simpl map. unfold mark_filled at 1. unfold spec_fills.
  destruct (active t) eqn:Ha, (spec_eligible (order t) tick) eqn:He; simpl.
  - rewrite filter_cons_False by (simpl; discriminate).
    rewrite (filter_cons_False _ t) by (rewrite He; intros [_ ?]; discriminate).
    exact IH.
  - rewrite filter_cons_True by exact Ha.
    rewrite (filter_cons_True _ t) by (rewrite Ha, He; done).
    rewrite IH. done.
  - rewrite filter_cons_False by (rewrite Ha; discriminate).
    rewrite (filter_cons_False _ t) by (rewrite Ha; intros [? _]; discriminate).
    exact IH.
  - rewrite filter_cons_False by (rewrite Ha; discriminate).
    rewrite (filter_cons_False _ t) by (rewrite Ha; intros [? _]; discriminate).
    exact IH.
Qed.

Lemma spec_scan_clock (tick : tick_event_t) (ts : list tracked_order_t) :
  forall h : engine_handle_t,
    current_ts_ms (spec_scan tick ts h) = current_ts_ms h
    /\ last_tick_price (spec_scan tick ts h) = last_tick_price h.
Proof.
  unfold spec_scan. induction ts as [|t ts IH]; intros h; simpl.
  - split; reflexivity.
  - destruct (IH (spec_fill_one tick h t)) as [-> ->].
    unfold spec_fill_one. destruct (spec_fills tick t); [|split; reflexivity].
    apply execute_fill_clock.
Qed.

(** [engine_step_tick] as the scan of the slots in use followed by the
    compaction of the marked array. *)
Lemma engine_step_tick_eq (h : engine_handle_t) (tick : tick_event_t) :
  let clocked := set_clock h (tick_ts_ms tick) (tick_price_tick tick) in
  let marked :=
    map (mark_filled tick) (used_slots h) ++ drop (order_count h) (orders h) in
  engine_step_tick h tick
  = (0, set_orders (spec_scan tick (used_slots h) clocked)
          (compact_loop (order_count h) 0 0 marked).2
          (compact_loop (order_count h) 0 0 marked).1).
Proof.
  intros clocked marked. unfold engine_step_tick. rewrite fill_loop_spec.
  cbn [orders order_count set_orders set_clock].
  rewrite drop_0, take_0. cbn [app Nat.add]. fold (used_slots h). fold marked.
  fold clocked.
  destruct (compact_loop (order_count h) 0 0 marked) as [w os]. reflexivity.
Qed.

(** The slots in use after a step, and the size of the array. *)
Lemma engine_step_tick_slots (h : engine_handle_t) (tick : tick_event_t) :
  order_count (engine_step_tick h tick).2
  = length (spec_survivors tick (used_slots h))
  /\ length (orders (engine_step_tick h tick).2) = length (orders h).
Proof.
  rewrite engine_step_tick_eq.
  set (marked := map (mark_filled tick) (used_slots h)
                 ++ drop (order_count h) (orders h)).
  destruct (compact_loop_spec (order_count h) 0 0 marked) as (H1 & H2 & H3); [lia|].
  assert (Hm : take (order_count h) marked = map (mark_filled tick) (used_slots h))
    by apply take_marked.
  rewrite drop_0, Hm, filter_mark_filled in H1.
  cbn [snd orders order_count set_orders]. split; [exact H1|].
  rewrite H3. subst marked. rewrite length_app, length_map, length_drop.
  unfold used_slots. rewrite length_take. lia.
Qed.

(** ** C5: tick processing *)

(** C5.  [step_tick] records the timestamp and the price of the tick, then
    takes the slots in use in insertion order: an active order fills when
    it is a market order, a buy limit with [tick.price_tick <=
    order.price_tick] or a sell limit with [tick.price_tick >=
    order.price_tick]; its fill starts from the tick price for a market
    order and from the limit price for a limit order, and is executed on
    the account as the earlier fills left it.  Afterwards the slots in use
    are exactly the active orders that did not fill, in their insertion
    order, and nothing else of the handle has changed. *)
Theorem step_tick_in_insertion_order (h : engine_handle_t) (tick : tick_event_t) :
  let h' := (engine_step_tick h tick).2 in
  let clocked := set_clock h (tick_ts_ms tick) (tick_price_tick tick) in
  (engine_step_tick h tick).1 = 0
  /\ current_ts_ms h' = tick_ts_ms tick
  /\ last_tick_price h' = tick_price_tick tick
  /\ set_orders h' (orders h) (order_count h)
     = fold_left
         (fun (a : engine_handle_t) (t : tracked_order_t) =>
            if active t
               && match order_type (order t), order_side (order t) with
                  | ORDER_TYPE_MARKET, _ => true
                  | ORDER_TYPE_LIMIT, SIDE_BUY =>
                      tick_price_tick tick <=? order_price_tick (order t)
                  | ORDER_TYPE_LIMIT, SIDE_SELL =>
                      order_price_tick (order t) <=? tick_price_tick tick
                  end
            then
              execute_fill a (order t)
                (apply_spread a
                   match order_type (order t) with
                   | ORDER_TYPE_MARKET => tick_price_tick tick
                   | ORDER_TYPE_LIMIT => order_price_tick (order t)
                   end
                   (order_side (order t)))
            else a)
         (used_slots h) clocked
  /\ used_slots h' = spec_survivors tick (used_slots h)
  /\ order_count h' = length (spec_survivors tick (used_slots h))
  /\ length (orders h') = length (orders h).
Proof.
  intros h' clocked.
  change (fold_left _ (used_slots h) clocked)
    with (spec_scan tick (used_slots h) clocked).
  subst h'. rewrite engine_step_tick_eq. fold clocked.
  set (marked := map (mark_filled tick) (used_slots h)
                 ++ drop (order_count h) (orders h)).
  destruct (compact_loop_spec (order_count h) 0 0 marked) as (H1 & H2 & H3); [lia|].
  assert (Hm : take (order_count h) marked = map (mark_filled tick) (used_slots h))
    by apply take_marked.
  rewrite drop_0, Hm, filter_mark_filled in H1, H2.
  destruct (spec_scan_orders tick (used_slots h) clocked) as [Ho Hn].
  destruct (spec_scan_clock tick (used_slots h) clocked) as [Hts Hp].
  cbn [fst snd]. repeat split.
  - exact Hts.
  - exact Hp.
  - rewrite set_orders_twice.
    rewrite <- (set_orders_id (spec_scan tick (used_slots h) clocked)) at 2.
    rewrite Ho, Hn. reflexivity.
  - exact H2.
  - exact H1.
  - cbn [orders set_orders]. rewrite H3. subst marked.
    rewrite length_app, length_map, length_drop.
    unfold used_slots. rewrite length_take. lia.
Qed.

(** ** Placement and cancellation *)

Lemma deactivate_length (os : list tracked_order_t) (i : nat) :
  length (deactivate os i) = length os.
Proof.
  unfold deactivate. destruct (os !! i); [apply length_insert|reflexivity].
Qed.

(** The search of [engine_cancel_order] over the slots [i, i + n): it
    fails, leaving the handle as it was, when no active order has the id,
    and otherwise marks the first active order with the id inactive. *)
Lemma cancel_loop_first (id : Z) (n : nat) :
  forall (i : nat) (h : engine_handle_t),
    ((cancel_loop id n i h).1 = -1
     /\ (cancel_loop id n i h).2 = h
     /\ forall (j : nat) (t : tracked_order_t),
          (i <= j < i + n)%nat -> orders h !! j = Some t ->
          active t = true -> order_id (order t) <> id)
    \/ ((cancel_loop id n i h).1 = 0
        /\ exists (j : nat) (t : tracked_order_t),
             (i <= j < i + n)%nat
             /\ orders h !! j = Some t
             /\ active t = true
             /\ order_id (order t) = id
             /\ (forall (k : nat) (t' : tracked_order_t),
                   (i <= k < j)%nat -> orders h !! k = Some t' ->
                   active t' = true -> order_id (order t') <> id)
             /\ (cancel_loop id n i h).2
                = set_orders h
                    (<[j := {| order := order t; active := false |}]> (orders h))
                    (order_count h)).
Proof.
  induction n as [|n IH]; intros i h.
  - left. simpl. repeat split. intros j t Hj. lia.
  - simpl cancel_loop. destruct (orders h !! i) as [t|] eqn:Hi.
    + destruct (active t && (order_id (order t) =? id)) eqn:Hm.
      * right. apply andb_true_iff in Hm as [Ha He]. apply Z.eqb_eq in He.
        split; [reflexivity|]. exists i, t. unfold deactivate. rewrite Hi.
        repeat split; try done; try lia.
      * assert (Hskip : forall (k : nat) (t' : tracked_order_t),
                   k = i -> orders h !! k = Some t' ->
                   active t' = true -> order_id (order t') <> id).
        { intros k t' -> Hl Ha. rewrite Hi in Hl. injection Hl as <-.
          rewrite Ha in Hm. simpl in Hm. apply Z.eqb_neq in Hm. exact Hm. }
        destruct (IH (S i) h)
          as [(H1 & H2 & H3)|(H1 & j & t' & Hj & Hl & Ha & Hid & Hf & H2)].
        -- left. repeat split; try done. intros j t' Hj Hl Ha.
           destruct (decide (j = i)) as [->|Hne].
           ++ apply (Hskip i t'); done.
           ++ apply (H3 j t'); [lia|done|done].
        -- right. split; [done|]. exists j, t'.
           split; [lia|]. repeat split; try done. intros k t'' Hk Hlk Hak.
           destruct (decide (k = i)) as [->|Hne].
           ++ apply (Hskip i t''); done.
           ++ apply (Hf k t''); [lia|done|done].
    + destruct (IH (S i) h)
        as [(H1 & H2 & H3)|(H1 & j & t' & Hj & Hl & Ha & Hid & Hf & H2)].
      * left. repeat split; try done. intros j t' Hj Hl Ha.
        destruct (decide (j = i)) as [->|Hne]; [congruence|].
        apply (H3 j t'); [lia|done|done].
      * right. split; [done|]. exists j, t'.
        split; [lia|]. repeat split; try done. intros k t'' Hk Hlk Hak.
        destruct (decide (k = i)) as [->|Hne]; [congruence|].
        apply (Hf k t''); [lia|done|done].
Qed.

Lemma cancel_loop_spec (id : Z) (n : nat) (i : nat) (h : engine_handle_t) :
  ((cancel_loop id n i h).1 = -1
   /\ (cancel_loop id n i h).2 = h
   /\ forall (j : nat) (t : tracked_order_t),
        (i <= j < i + n)%nat -> orders h !! j = Some t ->
        active t = true -> order_id (order t) <> id)
  \/ ((cancel_loop id n i h).1 = 0
      /\ exists (j : nat) (t : tracked_order_t),
           (i <= j < i + n)%nat
           /\ orders h !! j = Some t
           /\ active t = true
           /\ order_id (order t) = id
           /\ (cancel_loop id n i h).2
              = set_orders h
                  (<[j := {| order := order t; active := false |}]> (orders h))
                  (order_count h)).
Proof.
  destruct (cancel_loop_first id n i h)
    as [H|(H1 & j & t & Hj & Hl & Ha & Hid & _ & H2)]; [left; exact H|].
  right. split; [exact H1|]. exists j, t. done.
Qed.

Lemma filter_active_deactivated (l : list tracked_order_t) :
  forall (j : nat) (t : tracked_order_t),
    l !! j = Some t -> active t = true ->
    S (length (filter (fun t => active t = true)
                 (<[j := {| order := order t; active := false |}]> l)))
    = length (filter (fun t => active t = true) l).
Proof.
  induction l as [|x l IH]; intros j t Hj Ha; [done|].
  destruct j as [|j]; simpl in Hj |- *.
  - injection Hj as ->.
    rewrite filter_cons_False by (simpl; discriminate).
    rewrite filter_cons_True by exact Ha. done.
  - destruct (active x) eqn:Hx.
    + rewrite !filter_cons_True by exact Hx. simpl. f_equal. apply IH; done.
    + rewrite !filter_cons_False by (rewrite Hx; discriminate). apply IH; done.
Qed.

Lemma live_count_le (h : engine_handle_t) : (live_count h <= order_count h)%nat.
Proof.
  unfold live_count, live_orders, used_slots.
  etransitivity; [apply length_filter|]. rewrite length_take. lia.
Qed.

Lemma survivors_le_live (tick : tick_event_t) (ts : list tracked_order_t) :
  (length (spec_survivors tick ts)
   <= length (filter (fun t => active t = true) ts))%nat.
Proof.
  unfold spec_survivors. induction ts as [|t ts IH]; [done|].
  destruct (active t) eqn:Ha.
  - rewrite (filter_cons_True (fun t => active t = true)) by exact Ha.
    destruct (spec_eligible (order t) tick) eqn:He.
    + rewrite filter_cons_False by (rewrite He; intros [_ ?]; discriminate).
      simpl. lia.
    + rewrite filter_cons_True by (rewrite Ha, He; done). simpl. lia.
  - rewrite !filter_cons_False; [exact IH| |]; rewrite Ha; try discriminate.
    intros [? _]; discriminate.
Qed.

(** A successful cancellation: the count of slots in use stays, and one
    live order less is held. *)
Lemma engine_cancel_order_success (h : engine_handle_t) (id : Z) :
  (engine_cancel_order h id).1 = 0 ->
  order_count (engine_cancel_order h id).2 = order_count h
  /\ length (orders (engine_cancel_order h id).2) = length (orders h)
  /\ S (live_count (engine_cancel_order h id).2) = live_count h.
Proof.
  unfold engine_cancel_order. intros H0.
  destruct (cancel_loop_spec id (order_count h) 0 h)
    as [(H1 & _)|(_ & j & t & Hj & Hl & Ha & _ & ->)]; [rewrite H0 in H1; done|].
  cbn [order_count orders set_orders]. split; [done|].
  split; [apply length_insert|].
  unfold live_count, live_orders, used_slots. cbn [order_count orders set_orders].
  rewrite take_insert_lt by lia.
  apply filter_active_deactivated; [|done].
  rewrite lookup_take_lt by lia. done.
Qed.

Lemma initial_handle_well_formed (cfg : config_t) : well_formed (initial_handle cfg).
Proof. split; [reflexivity|]. simpl. unfold MAX_OPEN_ORDERS. lia. Qed.

Lemma engine_place_order_result (h : engine_handle_t) (o : order_t) :
  well_formed h ->
  if (MAX_OPEN_ORDERS <=? order_count h)%nat
  then engine_place_order h o = (-2, h)
  else (engine_place_order h o).1 = 0
       /\ used_slots (engine_place_order h o).2
          = used_slots h ++ [{| order := o; active := true |}]
       /\ order_count (engine_place_order h o).2 = S (order_count h)
       /\ set_orders (engine_place_order h o).2 (orders h) (order_count h) = h
       /\ well_formed (engine_place_order h o).2.
Proof.
  intros [Hlen Hcnt]. unfold engine_place_order.
  destruct (Nat.leb_spec MAX_OPEN_ORDERS (order_count h)) as [Hfull|Hroom];
    [reflexivity|].
  cbn [fst snd]. split; [reflexivity|]. split.
  - unfold used_slots. cbn [orders order_count set_orders].
    rewrite (take_S_r _ _ {| order := o; active := true |})
      by (apply list_lookup_insert_eq; lia).
    rewrite take_insert_ge by lia. reflexivity.
  - split; [reflexivity|]. split; [rewrite set_orders_twice; apply set_orders_id|].
    split; cbn [orders order_count set_orders]; [rewrite length_insert; exact Hlen|lia].
Qed.

Lemma engine_cancel_order_well_formed (h : engine_handle_t) (id : Z) :
  well_formed h -> well_formed (engine_cancel_order h id).2.
Proof.
  intros [Hlen Hcnt]. unfold engine_cancel_order.
  destruct (cancel_loop_spec id (order_count h) 0 h)
    as [(_ & -> & _)|(_ & j & t & _ & _ & _ & _ & ->)]; [done|].
  split; cbn [orders order_count set_orders]; [rewrite length_insert|]; done.
Qed.

Lemma engine_step_tick_well_formed (h : engine_handle_t) (tick : tick_event_t) :
  well_formed h -> well_formed (engine_step_tick h tick).2.
Proof.
  intros [Hlen Hcnt].
  destruct (engine_step_tick_slots h tick) as (Hc & Hl).
  split; [rewrite Hl; exact Hlen|]. rewrite Hc.
  etransitivity; [apply survivors_le_live|].
  etransitivity; [apply length_filter|].
  unfold used_slots. rewrite length_take. lia.
Qed.

(** Every handle reached from a new one is well formed: no loop of the
    kernel reads or writes outside the array. *)
Lemma run_well_formed (ops : list operation) :
  forall h : engine_handle_t, well_formed h -> well_formed (run ops h).
Proof.
  unfold run. induction ops as [|op ops IH]; intros h Hwf; [exact Hwf|].
  simpl. apply IH. destruct op as [|o|id|tick]; simpl.
  - apply initial_handle_well_formed.
  - pose proof (engine_place_order_result h o Hwf) as Hp.
    destruct (MAX_OPEN_ORDERS <=? order_count h)%nat.
    + rewrite Hp. exact Hwf.
    + apply Hp.
  - apply engine_cancel_order_well_formed, Hwf.
  - apply engine_step_tick_well_formed, Hwf.
Qed.

(** X3.  Order-set bound: whatever the operations applied to a new handle, the
    array keeps its [MAX_OPEN_ORDERS] slots, the count of slots in use
    stays within them, and so does the number of live orders. *)
Theorem reachable_handles_within_capacity (cfg : config_t) (ops : list operation) :
  well_formed (run ops (initial_handle cfg))
  /\ (live_count (run ops (initial_handle cfg)) <= MAX_OPEN_ORDERS)%nat.
Proof.
  assert (Hwf : well_formed (run ops (initial_handle cfg)))
    by apply run_well_formed, initial_handle_well_formed.
  split; [exact Hwf|].
  etransitivity; [apply live_count_le|]. apply Hwf.
Qed.

(** X4.  [engine_cancel_order] fails with -1, leaving the handle as it was, when
    no live order has the id; otherwise it returns 0 and marks inactive
    one live order with that id, the first in insertion order, changing
    nothing else. *)
Theorem cancel_order_result (h : engine_handle_t) (id : Z) :
  ((engine_cancel_order h id).1 = -1
   /\ (engine_cancel_order h id).2 = h
   /\ Forall (fun t => order_id (order t) <> id) (live_orders h))
  \/ ((engine_cancel_order h id).1 = 0
      /\ exists (j : nat) (t : tracked_order_t),
           (j < order_count h)%nat
           /\ orders h !! j = Some t
           /\ active t = true
           /\ order_id (order t) = id
           /\ Forall (fun t' => active t' = true -> order_id (order t') <> id)
                (take j (orders h))
           /\ (engine_cancel_order h id).2
              = set_orders h
                  (<[j := {| order := order t; active := false |}]> (orders h))
                  (order_count h)).
Proof.
  unfold engine_cancel_order.
  destruct (cancel_loop_first id (order_count h) 0 h)
    as [(H1 & H2 & H3)|(H1 & j & t & Hj & Hl & Ha & Hid & Hfirst & H2)].
  - left. split; [exact H1|]. split; [exact H2|].
    apply Forall_forall. intros t Ht.
    unfold live_orders, used_slots in Ht.
    apply list_elem_of_filter in Ht as [Ha Ht].
    apply list_elem_of_lookup in Ht as [j Hj].
    apply lookup_take_Some in Hj as [Hj Hlt].
    apply (H3 j t); [lia|exact Hj|exact Ha].
  - right. split; [exact H1|]. exists j, t.
    split; [lia|]. split; [exact Hl|]. split; [exact Ha|]. split; [exact Hid|].
    split; [|exact H2].
    apply Forall_forall. intros t' Ht' Ha'.
    apply list_elem_of_lookup in Ht' as [k Hk].
    apply lookup_take_Some in Hk as [Hk Hlt].
    apply (Hfirst k t'); [lia|exact Hk|exact Ha'].
Qed.

(** ** C7: order placement *)

(** C7, as stated, fails: an order of quantity 0, a limit order at price
    tick 0 and an order whose id is already live are all accepted. *)
Lemma place_order_accepts_invalid_orders :
  (engine_place_order (initial_handle sample_config)
     (market_order 1 SIDE_BUY 0)).1 = 0
  /\ (engine_place_order (initial_handle sample_config)
        (limit_order 2 SIDE_SELL 1000000 0)).1 = 0
  /\ map (fun t => order_id (order t)) (live_orders one_order_handle) = [7]
  /\ (engine_place_order one_order_handle (market_order 7 SIDE_SELL 2000000)).1 = 0
  /\ map (fun t => order_id (order t))
       (live_orders
          (engine_place_order one_order_handle
             (market_order 7 SIDE_SELL 2000000)).2)
     = [7; 7].
Proof. vm_compute. repeat split; reflexivity. Qed.

(** C7, amended.  [engine_place_order] checks the capacity and nothing
    else: on a handle whose [MAX_OPEN_ORDERS] slots are all in use it
    fails with -2 (order book full) and leaves the handle unchanged;
    otherwise it succeeds whatever the quantity, price and id of the
    order, appending it as an active order after the slots in use and
    changing nothing else. *)
Theorem place_order_checks_capacity_only (h : engine_handle_t) (o : order_t) :
  well_formed h ->
  if (order_count h =? MAX_OPEN_ORDERS)%nat
  then engine_place_order h o = (-2, h)
  else (engine_place_order h o).1 = 0
       /\ used_slots (engine_place_order h o).2
          = used_slots h ++ [{| order := o; active := true |}]
       /\ live_orders (engine_place_order h o).2
          = live_orders h ++ [{| order := o; active := true |}]
       /\ set_orders (engine_place_order h o).2 (orders h) (order_count h) = h
       /\ well_formed (engine_place_order h o).2.
Proof.
  intros Hwf. pose proof (engine_place_order_result h o Hwf) as Hp.
  destruct Hwf as [Hlen Hcnt].
  destruct (Nat.eqb_spec (order_count h) MAX_OPEN_ORDERS) as [Heq|Hne].
  - destruct (Nat.leb_spec MAX_OPEN_ORDERS (order_count h)); [exact Hp|lia].
  - destruct (Nat.leb_spec MAX_OPEN_ORDERS (order_count h)); [lia|].
    destruct Hp as (H1 & H2 & H3 & H4 & H5).
    split; [exact H1|]. split; [exact H2|]. split; [|split; [exact H4|exact H5]].
    unfold live_orders. rewrite H2, filter_app. reflexivity.
Qed.

Lemma place_order_checks_capacity_only_witness :
  well_formed (initial_handle sample_config)
  /\ (engine_place_order (initial_handle sample_config)
        (market_order 1 SIDE_BUY 0)).1 = 0.
Proof.
  assert (Hwf : well_formed (initial_handle sample_config)).
  { split; [reflexivity|]. unfold MAX_OPEN_ORDERS. simpl. lia. }
  split; [exact Hwf|].
  exact (proj1 (place_order_checks_capacity_only (initial_handle sample_config)
                  (market_order 1 SIDE_BUY 0) Hwf)).
Defined.

(** ** C10: cancelled slots and capacity *)

Lemma full_book_cancel_then_place :
  order_count full_book = MAX_OPEN_ORDERS
  /\ live_count full_book = MAX_OPEN_ORDERS
  /\ (engine_cancel_order full_book 5).1 = 0
  /\ order_count (engine_cancel_order full_book 5).2 = MAX_OPEN_ORDERS
  /\ live_count (engine_cancel_order full_book 5).2 = 1023%nat
  /\ (engine_place_order (engine_cancel_order full_book 5).2
        (limit_order 5000 SIDE_BUY 1000000 50)).1 = -2
  /\ order_count
       (engine_step_tick (engine_cancel_order full_book 5).2
          (sample_tick 1 100)).2 = 1023%nat
  /\ (engine_place_order
        (engine_step_tick (engine_cancel_order full_book 5).2
           (sample_tick 1 100)).2
        (limit_order 5000 SIDE_BUY 1000000 50)).1 = 0.
Proof. vm_compute. repeat split; reflexivity. Qed.

(** C10.  A successful [engine_cancel_order] leaves [order_count] as it
    was and only marks the order inactive, so one live order less is held
    in the same number of slots; when all [MAX_OPEN_ORDERS] slots were in
    use, the next [engine_place_order] fails with -2 although fewer than
    [MAX_OPEN_ORDERS] orders are live.  The next [engine_step_tick]
    compacts the slots down to at most the live orders, after which a
    placement succeeds.  A full book of 1024 limit orders, one of them
    cancelled, is such a sequence. *)
Theorem cancelled_slot_held_until_compaction :
  (forall (h : engine_handle_t) (id : Z) (o : order_t) (tick : tick_event_t),
      (engine_cancel_order h id).1 = 0 ->
      order_count (engine_cancel_order h id).2 = order_count h
      /\ S (live_count (engine_cancel_order h id).2) = live_count h
      /\ (order_count h = MAX_OPEN_ORDERS ->
          engine_place_order (engine_cancel_order h id).2 o
          = (-2, (engine_cancel_order h id).2)
          /\ (live_count (engine_cancel_order h id).2 < MAX_OPEN_ORDERS)%nat)
      /\ (order_count (engine_step_tick (engine_cancel_order h id).2 tick).2
          <= live_count (engine_cancel_order h id).2)%nat
      /\ ((order_count h <= MAX_OPEN_ORDERS)%nat ->
          (engine_place_order
             (engine_step_tick (engine_cancel_order h id).2 tick).2 o).1 = 0))
  /\ (live_count (engine_cancel_order full_book 5).2 < MAX_OPEN_ORDERS)%nat
  /\ (engine_place_order (engine_cancel_order full_book 5).2
        (limit_order 5000 SIDE_BUY 1000000 50)).1 = -2
  /\ (engine_place_order
        (engine_step_tick (engine_cancel_order full_book 5).2
           (sample_tick 1 100)).2
        (limit_order 5000 SIDE_BUY 1000000 50)).1 = 0.
Proof.
  split.
  - intros h id o tick Hok.
    destruct (engine_cancel_order_success h id Hok) as (Hc & Hl & Hlive).
    set (h1 := (engine_cancel_order h id).2) in *.
    pose proof (live_count_le h) as Hle.
    assert (Hstep : (order_count (engine_step_tick h1 tick).2 <= live_count h1)%nat).
    { destruct (engine_step_tick_slots h1 tick) as [-> _].
      apply survivors_le_live. }
    split; [exact Hc|]. split; [exact Hlive|]. split; [|split; [exact Hstep|]].
    + intros Hfull. split; [|lia].
      unfold engine_place_order. rewrite Hc, Hfull.
      rewrite Nat.leb_refl. reflexivity.
    + intros Hcap. unfold engine_place_order.
      destruct (Nat.leb_spec MAX_OPEN_ORDERS
                  (order_count (engine_step_tick h1 tick).2)); [lia|reflexivity].
  - destruct full_book_cancel_then_place as (_ & _ & _ & _ & H5 & H6 & _ & H8).
    rewrite H5. split; [unfold MAX_OPEN_ORDERS; lia|]. split; [exact H6|exact H8].
Qed.

Lemma cancelled_slot_held_until_compaction_witness :
  (engine_cancel_order full_book 5).1 = 0
  /\ order_count (engine_cancel_order full_book 5).2 = order_count full_book
  /\ S (live_count (engine_cancel_order full_book 5).2) = live_count full_book.
Proof.
  assert (Hok : (engine_cancel_order full_book 5).1 = 0)
    by (vm_compute; reflexivity).
  split; [exact Hok|].
  destruct (proj1 cancelled_slot_held_until_compaction full_book 5
              (limit_order 5000 SIDE_BUY 1000000 50) (sample_tick 1 100) Hok)
    as (Hc & Hl & _).
  split; [exact Hc|exact Hl].
Defined.

(** ** Signs of binary64 results *)

Lemma binary_round_aux_sign (s : bool) (m e : Z) (l : location) :
  signed_like s (binary_round_aux prec emax s m e l) = true.
Proof.
  unfold binary_round_aux.
  destruct (shr_fexp prec emax m e l) as [mrs' e'].
  destruct (shr_fexp prec emax _ e' loc_Exact) as [mrs'' e''].
  destruct (shr_m mrs''); simpl; [reflexivity| |reflexivity].
  destruct (e'' <=? emax - prec); simpl; destruct s; reflexivity.
Qed.

Lemma binary_round_sign (s : bool) (m : positive) (e : Z) :
  signed_like s (binary_round prec emax s m e) = true.
Proof.
  unfold binary_round.
  destruct (shl_align m e _) as [mz ez]. apply binary_round_aux_sign.
Qed.

Lemma of_int64_sign (z : Z) :
  (0 <= z -> signed_like false (of_int64 z) = true)
  /\ (z <= 0 -> signed_like true (of_int64 z) = true).
Proof.
  unfold of_int64, binary_normalize. destruct z as [|p|p]; split; intros Hz;
    try reflexivity; try lia; apply binary_round_sign.
Qed.

Lemma signed_like_not_negative (x : double) :
  is_negative x = false -> signed_like false x = true.
Proof.
  destruct x as [s|s| |s m e]; simpl; intros Hx; try reflexivity;
    rewrite Hx; reflexivity.
Qed.

Lemma fdiv_ten_thousand_sign (s : bool) (x : double) :
  signed_like s x = true -> signed_like s (fdiv x ten_thousand) = true.
Proof.
  assert (Ht : exists m e, ten_thousand = S754_finite false m e)
    by (vm_compute; eauto).
  destruct Ht as (m & e & ->).
  destruct x as [sx|sx| |sx mx ex]; simpl; intros Hx; try reflexivity.
  - rewrite xorb_false_r. exact Hx.
  - apply eqb_prop in Hx. subst sx. unfold fdiv, SFdiv.
    destruct (SFdiv_core_binary prec emax (Z.pos mx) ex (Z.pos m) e) as [[mz ez] lz].
    rewrite xorb_false_r. apply binary_round_aux_sign.
Qed.

Lemma fmul_sign (a b : bool) (x y : double) :
  signed_like a x = true -> signed_like b y = true ->
  signed_like (xorb a b) (fmul x y) = true.
Proof.
  destruct x as [sx|sx| |sx mx ex], y as [sy|sy| |sy my ey]; simpl;
    intros Hx Hy; try reflexivity;
    try (apply eqb_prop in Hx; subst sx);
    try (apply eqb_prop in Hy; subst sy);
    try apply eqb_reflx.
  unfold fmul, SFmul. apply binary_round_aux_sign.
Qed.

Lemma ceil_sign (s : bool) (x : double) :
  signed_like s x = true -> signed_like s (ceil x) = true.
Proof.
  destruct x as [sx|sx| |sx m e]; simpl; intros Hx; try exact Hx.
  apply eqb_prop in Hx. subst sx. unfold ceil.
  destruct (0 <=? e) eqn:He; [simpl; apply eqb_reflx|].
  apply Z.leb_gt in He.
  assert (Hpow : 0 < 2 ^ (- e)) by (apply Z.pow_pos_nonneg; lia).
  destruct (Z.eqb_spec (- (- signed_mantissa s m / 2 ^ (- e))) 0) as [_|Hnz];
    [reflexivity|].
  pose proof (Pos2Z.is_pos m) as Hm.
  destruct s; unfold signed_mantissa in *; cbn [signed_like Bool.eqb].
  - apply of_int64_sign.
    assert (0 <= - Z.neg m / 2 ^ (- e)) by (apply Z.div_pos; lia). lia.
  - apply of_int64_sign.
    assert (- Z.pos m / 2 ^ (- e) < 0) by (apply Z.div_lt_upper_bound; lia). lia.
Qed.

Lemma to_int64_sign (x : double) :
  int64_convertible x = true ->
  (signed_like false x = true -> 0 <= to_int64 x)
  /\ (signed_like true x = true -> to_int64 x <= 0).
Proof.
  destruct x as [sx|sx| |sx m e]; simpl; try discriminate.
  - intros _. unfold to_int64. lia.
  - intros Hc. unfold to_int64. rewrite Hc. clear Hc.
    destruct (0 <=? e) eqn:He.
    + apply Z.leb_le in He.
      assert (Hpow : 0 < 2 ^ e) by (apply Z.pow_pos_nonneg; lia).
      split; intros Hs; apply eqb_prop in Hs; subst sx; simpl; nia.
    + apply Z.leb_gt in He.
      assert (Hpow : 0 < 2 ^ (- e)) by (apply Z.pow_pos_nonneg; lia).
      split; intros Hs; apply eqb_prop in Hs; subst sx; simpl.
      * apply Z.quot_pos; lia.
      * rewrite <- (Z.opp_involutive (Z.neg m)), Z.quot_opp_l by lia.
        pose proof (Z.quot_pos (- Z.neg m) (2 ^ (- e))). lia.
Qed.

(** The offset of the kernel has the sign of the price, for a spread that
    is not negative, whenever its conversion to [int64_t] is defined. *)
Lemma offset_ticks_sign (cfg : config_t) (price_tick : Z) :
  is_negative (spread_bps cfg) = false ->
  int64_convertible
    (ceil (fmul (of_int64 price_tick) (fdiv (spread_bps cfg) ten_thousand))) = true ->
  (0 <= price_tick -> 0 <= offset_ticks cfg price_tick)
  /\ (price_tick <= 0 -> offset_ticks cfg price_tick <= 0).
Proof.
  intros Hs Hc. unfold offset_ticks.
  pose proof (fdiv_ten_thousand_sign false _ (signed_like_not_negative _ Hs)) as Hm.
  destruct (to_int64_sign _ Hc) as [Hpos Hneg].
  split; intros Hp.
  - apply Hpos, ceil_sign.
    apply (fmul_sign false false); [apply of_int64_sign; exact Hp|exact Hm].
  - apply Hneg, ceil_sign.
    apply (fmul_sign true false); [apply of_int64_sign; exact Hp|exact Hm].
Qed.

(** ** C4: spread application *)

(** C4.  On a negative price the spread does not widen the market.  At
    price tick -100 with a spread of 100 basis points the offset of
    section 4.4 is [ceil(|-100| * 0.01) = 1], so that a buy would fill at
    -99 and a sell at -101; the kernel computes the offset on the signed
    price, which is -1, and fills the buy at -101, below the base price,
    and the sell at -99, above it, where the comments of [apply_spread]
    have buyers pay more and sellers receive less.  The same happens
    through the public operations: a market buy filled at that tick
    enters at -101. *)
Theorem spread_offset_of_negative_price :
  spec_offset_ticks (spread_config 100) (-100) = 1
  /\ offset_ticks (spread_config 100) (-100) = -1
  /\ apply_spread (initial_handle (spread_config 100)) (-100) SIDE_BUY = -101
  /\ apply_spread (initial_handle (spread_config 100)) (-100) SIDE_SELL = -99
  /\ -100 + spec_offset_ticks (spread_config 100) (-100) = -99
  /\ -100 - spec_offset_ticks (spread_config 100) (-100) = -101
  /\ avg_entry_price
       (run [OpPlace (market_order 1 SIDE_BUY 1000000);
             OpStep (sample_tick 1 (-100))]
          (initial_handle (spread_config 100)))
     = of_int64 (-101).
Proof. vm_compute. repeat split; reflexivity. Qed.

(** X19.  The offset is [ceil(price_tick * (spread_bps / 10000))]
    on the signed price, converted to an integer; a buy fills at
    [price_tick + offset] and a sell at [price_tick - offset] (modulo
    [2^64]).  For a spread that is not negative and an offset in the 64-bit
    range, the offset is [>= 0] on a price that is [>= 0], where it is the
    offset of section 4.4, and [<= 0] on a price that is [<= 0].  Market
    and limit fills go through the same function, on the tick price and on
    the limit price. *)
Theorem spread_offset_on_signed_price (h : engine_handle_t) (price_tick : Z) :
  is_negative (spread_bps (config h)) = false ->
  int64_convertible
    (ceil (fmul (of_int64 price_tick)
                (fdiv (spread_bps (config h)) ten_thousand))) = true ->
  let offset :=
    to_int64 (ceil (fmul (of_int64 price_tick)
                         (fdiv (spread_bps (config h)) ten_thousand))) in
  apply_spread h price_tick SIDE_BUY = Int64.wrap (price_tick + offset)
  /\ apply_spread h price_tick SIDE_SELL = Int64.wrap (price_tick - offset)
  /\ (Int64.in_range (price_tick + offset) ->
      apply_spread h price_tick SIDE_BUY = price_tick + offset)
  /\ (Int64.in_range (price_tick - offset) ->
      apply_spread h price_tick SIDE_SELL = price_tick - offset)
  /\ (0 <= price_tick ->
      0 <= offset /\ offset = spec_offset_ticks (config h) price_tick)
  /\ (price_tick <= 0 -> offset <= 0)
  /\ (forall (tick : tick_event_t) (i : nat) (t : tracked_order_t),
        orders h !! i = Some t -> spec_fills tick t = true ->
        fill_slot tick i h
        = set_orders
            (execute_fill h (order t)
               (apply_spread h
                  match order_type (order t) with
                  | ORDER_TYPE_MARKET => tick_price_tick tick
                  | ORDER_TYPE_LIMIT => order_price_tick (order t)
                  end
                  (order_side (order t))))
            (<[i := {| order := order t; active := false |}]> (orders h))
            (order_count h)).
Proof.
  intros Hs Hc offset.
  destruct (offset_ticks_sign (config h) price_tick Hs Hc) as [Hpos Hneg].
  fold offset in Hpos, Hneg. unfold offset_ticks in Hpos, Hneg. fold offset in Hpos, Hneg.
  split; [reflexivity|]. split; [reflexivity|].
  split; [intros Hr; unfold apply_spread, Int64.add; apply wrap_in_range, Hr|].
  split; [intros Hr; unfold apply_spread, Int64.sub; apply wrap_in_range, Hr|].
  split.
  - intros Hp. split; [apply Hpos, Hp|].
    unfold spec_offset_ticks. rewrite Z.abs_eq by exact Hp. reflexivity.
  - split; [exact Hneg|].
    intros tick i t Hi Hf. rewrite (fill_slot_spec tick i h t Hi).
    unfold spec_fill_one, mark_filled. rewrite Hf. reflexivity.
Qed.

Lemma spread_offset_on_signed_price_witness :
  is_negative (spread_bps (config (initial_handle (spread_config 100)))) = false
  /\ int64_convertible
       (ceil (fmul (of_int64 100)
                (fdiv (spread_bps (config (initial_handle (spread_config 100))))
                   ten_thousand))) = true
  /\ apply_spread (initial_handle (spread_config 100)) 100 SIDE_BUY
     = Int64.wrap (100 + 1).
Proof.
  split; [reflexivity|]. split; [reflexivity|].
  exact (proj1 (spread_offset_on_signed_price
                  (initial_handle (spread_config 100)) 100
                  eq_refl eq_refl)).
Defined.

(** ** C3: batch ingestion *)

Lemma decode_encode_side (s : side_t) : decode_side (encode_side s) = Some s.
Proof. destruct s; reflexivity. Qed.

Lemma valid_batch_entries (qtys : list double) :
  forall sides : list side_t,
    forallb is_finite qtys = true ->
    forallb (fun qb => valid_batch_entry qb.1 qb.2)
      (zip qtys (map encode_side sides)) = true.
Proof.
  induction qtys as [|q qtys IH]; intros [|s sides] Hq; try reflexivity.
  simpl in Hq |- *. apply andb_true_iff in Hq as [Hq1 Hq2].
  unfold valid_batch_entry at 1. simpl. rewrite Hq1, decode_encode_side. simpl.
  apply IH, Hq2.
Qed.

(** The loop over the indices [i, i + n) is the succession of [step_tick]
    calls on the ticks at those indices. *)
Lemma batch_loop_spec (timestamps price_ticks : list Z) (qtys : list double)
    (sides : list side_t) :
  length price_ticks = length timestamps ->
  length qtys = length timestamps ->
  length sides = length timestamps ->
  forall (n i : nat) (h : engine_handle_t),
    batch_loop timestamps price_ticks qtys (map encode_side sides) n i h
    = step_ticks h
        (batch_ticks (take n (drop i timestamps)) (take n (drop i price_ticks))
           (take n (drop i qtys)) (take n (drop i sides))).
Proof.
  intros Hp Hq Hs. induction n as [|n IH]; intros i h; [reflexivity|].
  simpl batch_loop. unfold batch_tick.
  destruct (timestamps !! i) as [ts|] eqn:Hi.
  - pose proof (lookup_lt_Some _ _ _ Hi) as Hlt.
    destruct (lookup_lt_is_Some_2 price_ticks i) as [pt Hpt]; [lia|].
    destruct (lookup_lt_is_Some_2 qtys i) as [q Hqi]; [lia|].
    destruct (lookup_lt_is_Some_2 sides i) as [s Hsi]; [lia|].
    rewrite Hpt, Hqi, list_lookup_fmap, Hsi. simpl. rewrite decode_encode_side.
    rewrite IH.
    rewrite (drop_S _ _ _ Hi), (drop_S _ _ _ Hpt), (drop_S _ _ _ Hqi),
      (drop_S _ _ _ Hsi).
    reflexivity.
  - rewrite IH. apply lookup_ge_None_1 in Hi.
    rewrite (drop_ge timestamps (S i)), (drop_ge timestamps i) by lia.
    rewrite !take_nil. reflexivity.
Qed.

(** C3.  For four sequences of equal length [N] with finite quantities and
    sides encoded 0 and 1, [step_batch] succeeds and leaves the handle,
    and hence the snapshot, of [N] successive [step_tick] calls on the
    same data in index order, each of which succeeds; for sequences that
    differ in length it fails with [length_mismatch] and leaves the handle
    as it was. *)
Theorem step_batch_equivalence (h : engine_handle_t)
    (timestamps price_ticks : list Z) (qtys : list double) (sides : list side_t) :
  length price_ticks = length timestamps ->
  length qtys = length timestamps ->
  length sides = length timestamps ->
  forallb is_finite qtys = true ->
  step_batch h timestamps price_ticks qtys (map encode_side sides)
  = (None, step_ticks h (batch_ticks timestamps price_ticks qtys sides))
  /\ engine_get_snapshot
       (step_batch h timestamps price_ticks qtys (map encode_side sides)).2
     = engine_get_snapshot
         (step_ticks h (batch_ticks timestamps price_ticks qtys sides))
  /\ length (batch_ticks timestamps price_ticks qtys sides) = length timestamps
  /\ Forall (fun t => forall h' : engine_handle_t, (step_tick h' t).1 = None)
       (batch_ticks timestamps price_ticks qtys sides)
  /\ (forall (price_ticks' : list Z) (qtys' : list double) (sides' : list Z),
        ~ (length price_ticks' = length timestamps
           /\ length qtys' = length timestamps
           /\ length sides' = length timestamps) ->
        step_batch h timestamps price_ticks' qtys' sides'
        = (Some length_mismatch, h)).
Proof.
  intros Hp Hq Hs Hfin.
  assert (Hb : step_batch h timestamps price_ticks qtys (map encode_side sides)
               = (None, step_ticks h (batch_ticks timestamps price_ticks qtys sides))).
  { unfold step_batch. rewrite length_map, Hp, Hq, Hs, Nat.eqb_refl. simpl.
    rewrite valid_batch_entries by exact Hfin. simpl.
    rewrite (batch_loop_spec _ _ _ _ Hp Hq Hs), !drop_0.
    rewrite !take_ge by lia. reflexivity. }
  split; [exact Hb|]. split; [rewrite Hb; reflexivity|]. split; [|split].
  - clear Hb Hfin. revert price_ticks qtys sides Hp Hq Hs.
    induction timestamps as [|ts timestamps IH];
      intros [|pt price_ticks] [|q qtys] [|s sides] Hp Hq Hs;
      try discriminate; [reflexivity|].
    simpl in *. f_equal. apply IH; lia.
  - clear Hb. revert price_ticks qtys sides Hp Hq Hs Hfin.
    induction timestamps as [|ts timestamps IH];
      intros [|pt price_ticks] [|q qtys] [|s sides] Hp Hq Hs Hfin;
      try discriminate; [constructor|].
    simpl in *. apply andb_true_iff in Hfin as [Hq1 Hq2]. constructor.
    + intros h'. unfold step_tick. simpl. rewrite Hq1. reflexivity.
    + apply IH; [lia|lia|lia|exact Hq2].
  - intros price_ticks' qtys' sides' Hne. unfold step_batch.
    destruct (Nat.eqb_spec (length price_ticks') (length timestamps));
      destruct (Nat.eqb_spec (length qtys') (length timestamps));
      destruct (Nat.eqb_spec (length sides') (length timestamps));
      simpl; try reflexivity.
    exfalso. apply Hne. done.
Qed.

Lemma step_batch_equivalence_witness :
  length [100; 110] = length [1; 2]
  /\ length [of_int64 1; of_int64 2] = length [1; 2]
  /\ length [SIDE_BUY; SIDE_SELL] = length [1; 2]
  /\ forallb is_finite [of_int64 1; of_int64 2] = true
  /\ step_batch one_order_handle [1; 2] [100; 110] [of_int64 1; of_int64 2]
        (map encode_side [SIDE_BUY; SIDE_SELL])
     = (None,
        step_ticks one_order_handle
          (batch_ticks [1; 2] [100; 110] [of_int64 1; of_int64 2]
             [SIDE_BUY; SIDE_SELL])).
Proof.
  split; [reflexivity|]. split; [reflexivity|]. split; [reflexivity|].
  split; [reflexivity|].
  exact (proj1 (step_batch_equivalence one_order_handle [1; 2] [100; 110]
                  [of_int64 1; of_int64 2] [SIDE_BUY; SIDE_SELL]
                  eq_refl eq_refl eq_refl eq_refl)).
Defined.

(** * Further properties of the kernel *)

(** ** What a step does to the account and to the slots *)

Lemma engine_step_tick_account (h : engine_handle_t) (tick : tick_event_t) :
  set_orders (engine_step_tick h tick).2 (orders h) (order_count h)
  = spec_scan tick (used_slots h)
      (set_clock h (tick_ts_ms tick) (tick_price_tick tick)).
Proof.
  rewrite engine_step_tick_eq. cbn [snd]. rewrite set_orders_twice.
  set (clocked := set_clock h (tick_ts_ms tick) (tick_price_tick tick)).
  destruct (spec_scan_orders tick (used_slots h) clocked) as [Ho Hn].
  rewrite <- (set_orders_id (spec_scan tick (used_slots h) clocked)) at 2.
  rewrite Ho, Hn. reflexivity.
Qed.

Lemma engine_step_tick_used_slots (h : engine_handle_t) (tick : tick_event_t) :
  used_slots (engine_step_tick h tick).2 = spec_survivors tick (used_slots h).
Proof.
  rewrite engine_step_tick_eq.
  set (marked := map (mark_filled tick) (used_slots h)
                 ++ drop (order_count h) (orders h)).
  destruct (compact_loop_spec (order_count h) 0 0 marked) as (H1 & H2 & H3); [lia|].
  assert (Hm : take (order_count h) marked = map (mark_filled tick) (used_slots h))
    by apply take_marked.
  rewrite drop_0, Hm, filter_mark_filled in H2.
  unfold used_slots at 1. cbn [snd orders order_count set_orders]. exact H2.
Qed.

Lemma spec_scan_live (tick : tick_event_t) (ts : list tracked_order_t) :
  forall h : engine_handle_t,
    spec_scan tick (filter (fun t => active t = true) ts) h = spec_scan tick ts h.
Proof.
  unfold spec_scan. induction ts as [|t ts IH]; intros h; [reflexivity|].
  destruct (active t) eqn:Ha.
  - rewrite filter_cons_True by exact Ha. simpl. apply IH.
  - rewrite filter_cons_False by (rewrite Ha; discriminate). simpl.
    rewrite IH. unfold spec_fill_one, spec_fills. rewrite Ha. reflexivity.
Qed.

Lemma spec_survivors_live (tick : tick_event_t) (ts : list tracked_order_t) :
  spec_survivors tick (filter (fun t => active t = true) ts)
  = spec_survivors tick ts.
Proof.
  unfold spec_survivors. induction ts as [|t ts IH]; [reflexivity|].
  destruct (active t) eqn:Ha.
  - rewrite (filter_cons_True (fun t => active t = true)) by exact Ha.
    destruct (spec_eligible (order t) tick) eqn:He.
    + rewrite !(filter_cons_False _ t) by (rewrite He; intros [_ ?]; discriminate).
      exact IH.
    + rewrite !(filter_cons_True _ t) by (rewrite Ha, He; done).
      rewrite IH. reflexivity.
  - rewrite (filter_cons_False (fun t => active t = true)) by (rewrite Ha; discriminate).
    rewrite (filter_cons_False _ t) by (rewrite Ha; intros [? _]; discriminate).
    exact IH.
Qed.

Lemma survivors_all_active (tick : tick_event_t) (ts : list tracked_order_t) :
  filter (fun t => active t = true) (spec_survivors tick ts)
  = spec_survivors tick ts.
Proof.
  unfold spec_survivors. induction ts as [|t ts IH]; [reflexivity|].
  destruct (active t) eqn:Ha, (spec_eligible (order t) tick) eqn:He.
  - rewrite (filter_cons_False _ t) by (rewrite He; intros [_ ?]; discriminate).
    exact IH.
  - rewrite (filter_cons_True _ t) by (rewrite Ha, He; done).
    rewrite filter_cons_True by exact Ha. rewrite IH. reflexivity.
  - rewrite (filter_cons_False _ t) by (rewrite Ha; intros [? _]; discriminate).
    exact IH.
  - rewrite (filter_cons_False _ t) by (rewrite Ha; intros [? _]; discriminate).
    exact IH.
Qed.

(** X5.  A step reads the live orders only: the account it leaves is the
    fills of the live orders in insertion order, and the slots in use
    afterwards are the live orders that did not fill, wherever cancelled
    orders sat between them. *)
Theorem step_tick_on_live_orders (h : engine_handle_t) (tick : tick_event_t) :
  set_orders (engine_step_tick h tick).2 (orders h) (order_count h)
  = spec_scan tick (live_orders h)
      (set_clock h (tick_ts_ms tick) (tick_price_tick tick))
  /\ used_slots (engine_step_tick h tick).2 = spec_survivors tick (live_orders h)
  /\ live_orders (engine_step_tick h tick).2 = used_slots (engine_step_tick h tick).2.
Proof.
  unfold live_orders at 1 2.
  rewrite spec_scan_live, spec_survivors_live.
  split; [apply engine_step_tick_account|].
  split; [apply engine_step_tick_used_slots|].
  unfold live_orders. rewrite engine_step_tick_used_slots.
  apply survivors_all_active.
Qed.

(** X6.  A step on a book without live orders records the timestamp and
    the price of the tick and nothing else: the account is untouched and
    no slot stays in use. *)
Theorem step_tick_empty_book (h : engine_handle_t) (tick : tick_event_t) :
  live_orders h = [] ->
  (engine_step_tick h tick).1 = 0
  /\ set_orders (engine_step_tick h tick).2 (orders h) (order_count h)
     = set_clock h (tick_ts_ms tick) (tick_price_tick tick)
  /\ order_count (engine_step_tick h tick).2 = 0%nat.
Proof.
  intros Hlive. split; [rewrite engine_step_tick_eq; reflexivity|]. split.
  - rewrite engine_step_tick_account, <- spec_scan_live.
    fold (live_orders h). rewrite Hlive. reflexivity.
  - destruct (engine_step_tick_slots h tick) as [-> _].
    rewrite <- spec_survivors_live. fold (live_orders h). rewrite Hlive.
    reflexivity.
Qed.

Lemma step_tick_empty_book_witness :
  live_orders (initial_handle sample_config) = []
  /\ order_count
       (engine_step_tick (initial_handle sample_config) (sample_tick 1 100)).2
     = 0%nat.
Proof.
  split; [reflexivity|].
  exact (proj2 (proj2 (step_tick_empty_book (initial_handle sample_config)
                         (sample_tick 1 100) eq_refl))).
Defined.

(** ** A tick repeated at the same price *)

Lemma spec_eligible_price (o : order_t) (tick tick' : tick_event_t) :
  tick_price_tick tick' = tick_price_tick tick ->
  spec_eligible o tick' = spec_eligible o tick.
Proof. intros Hp. unfold spec_eligible. rewrite Hp. reflexivity. Qed.

Lemma spec_scan_survivors (tick tick' : tick_event_t) (ts : list tracked_order_t) :
  tick_price_tick tick' = tick_price_tick tick ->
  forall h : engine_handle_t, spec_scan tick' (spec_survivors tick ts) h = h.
Proof.
  intros Hp. unfold spec_scan, spec_survivors.
  induction ts as [|t ts IH]; intros h; [reflexivity|].
  destruct (active t) eqn:Ha, (spec_eligible (order t) tick) eqn:He.
  - rewrite (filter_cons_False _ t) by (rewrite He; intros [_ ?]; discriminate).
    apply IH.
  - rewrite (filter_cons_True _ t) by (rewrite Ha, He; done).
    simpl. unfold spec_fill_one at 2. unfold spec_fills.
    rewrite (spec_eligible_price _ _ _ Hp), He, andb_false_r. apply IH.
  - rewrite (filter_cons_False _ t) by (rewrite Ha; intros [? _]; discriminate).
    apply IH.
  - rewrite (filter_cons_False _ t) by (rewrite Ha; intros [? _]; discriminate).
    apply IH.
Qed.

Lemma spec_survivors_twice (tick tick' : tick_event_t) (ts : list tracked_order_t) :
  tick_price_tick tick' = tick_price_tick tick ->
  spec_survivors tick' (spec_survivors tick ts) = spec_survivors tick ts.
Proof.
  intros Hp. unfold spec_survivors.
  induction ts as [|t ts IH]; [reflexivity|].
  destruct (active t) eqn:Ha, (spec_eligible (order t) tick) eqn:He.
  - rewrite (filter_cons_False _ t) by (rewrite He; intros [_ ?]; discriminate).
    exact IH.
  - rewrite (filter_cons_True _ t) by (rewrite Ha, He; done).
    rewrite (filter_cons_True _ t)
      by (rewrite Ha, (spec_eligible_price _ _ _ Hp), He; done).
    rewrite IH. reflexivity.
  - rewrite (filter_cons_False _ t) by (rewrite Ha; intros [? _]; discriminate).
    exact IH.
  - rewrite (filter_cons_False _ t) by (rewrite Ha; intros [? _]; discriminate).
    exact IH.
Qed.

Lemma survivors_are_limits (tick : tick_event_t) (ts : list tracked_order_t) :
  Forall (fun t => active t = true /\ order_type (order t) = ORDER_TYPE_LIMIT)
    (spec_survivors tick ts).
Proof.
  apply Forall_forall. intros t Ht. unfold spec_survivors in Ht.
  apply list_elem_of_filter in Ht as [[Ha He] _]. split; [exact Ha|].
  unfold spec_eligible in He. destruct (order_type (order t)); [reflexivity|discriminate].
Qed.

(** X7.  After a step, every slot in use holds an active limit order (a
    market order never outlives a step), and a second tick at the same
    price fills nothing: it moves the clock and leaves the account and the
    open orders as the first step left them. *)
Theorem repeated_tick_fills_nothing (h : engine_handle_t)
    (tick tick' : tick_event_t) :
  tick_price_tick tick' = tick_price_tick tick ->
  Forall (fun t => active t = true /\ order_type (order t) = ORDER_TYPE_LIMIT)
    (used_slots (engine_step_tick h tick).2)
  /\ set_orders (engine_step_tick (engine_step_tick h tick).2 tick').2
       (orders (engine_step_tick h tick).2)
       (order_count (engine_step_tick h tick).2)
     = set_clock (engine_step_tick h tick).2 (tick_ts_ms tick')
         (tick_price_tick tick')
  /\ used_slots (engine_step_tick (engine_step_tick h tick).2 tick').2
     = used_slots (engine_step_tick h tick).2.
Proof.
  intros Hp.
  split; [rewrite engine_step_tick_used_slots; apply survivors_are_limits|].
  split.
  - rewrite engine_step_tick_account, engine_step_tick_used_slots.
    apply spec_scan_survivors, Hp.
  - rewrite !engine_step_tick_used_slots. apply spec_survivors_twice, Hp.
Qed.

Lemma repeated_tick_fills_nothing_witness :
  tick_price_tick (sample_tick 2 101) = tick_price_tick (sample_tick 1 101)
  /\ used_slots
       (engine_step_tick (engine_step_tick (scenario_S6 []) (sample_tick 1 101)).2
          (sample_tick 2 101)).2
     = used_slots (engine_step_tick (scenario_S6 []) (sample_tick 1 101)).2.
Proof.
  split; [reflexivity|].
  exact (proj2 (proj2 (repeated_tick_fills_nothing (scenario_S6 [])
                         (sample_tick 1 101) (sample_tick 2 101) eq_refl))).
Defined.

(** ** The position as a sum of fills *)

Lemma wrap_wrap_add (a b : Z) : Int64.wrap (Int64.wrap a + b) = Int64.wrap (a + b).
Proof.
  unfold Int64.wrap. f_equal.
  replace ((a - Int64.min_signed) mod Int64.modulus + Int64.min_signed + b
           - Int64.min_signed)
    with ((a - Int64.min_signed) mod Int64.modulus + b) by lia.
  replace (a + b - Int64.min_signed) with (a - Int64.min_signed + b) by lia.
  apply Zplus_mod_idemp_l.
Qed.

Lemma spec_scan_position (tick : tick_event_t) (ts : list tracked_order_t) :
  forall h : engine_handle_t,
    Int64.in_range (position h) ->
    Int64.in_range (position (spec_scan tick ts h))
    /\ position (spec_scan tick ts h)
       = Int64.wrap (position h + total_delta tick ts).
Proof.
  unfold spec_scan. induction ts as [|t ts IH]; intros h Hr.
  - simpl. rewrite Z.add_0_r, wrap_in_range by exact Hr. split; [exact Hr|reflexivity].
  - simpl. unfold spec_fill_one at 2 4, fill_delta.
    destruct (spec_fills tick t).
    + destruct (IH (execute_fill h (order t)
                      (apply_spread h (spec_fill_base (order t) tick)
                         (order_side (order t))))) as [H1 H2].
      { rewrite execute_fill_position. apply wrap_range. }
      split; [exact H1|]. rewrite H2, execute_fill_position, wrap_wrap_add.
      f_equal. lia.
    + destruct (IH h Hr) as [H1 H2]. split; [exact H1|]. rewrite H2. f_equal.
Qed.

(** X8.  The position after a step is the position before it plus the
    signed quantities of the live orders that fill at the tick (plus on a
    buy, minus on a sell), modulo [2^64]: it does not depend on prices,
    spread, fees or the tick size. *)
Theorem step_tick_position (h : engine_handle_t) (tick : tick_event_t) :
  Int64.in_range (position h) ->
  position (engine_step_tick h tick).2
  = Int64.wrap (position h + total_delta tick (live_orders h))
  /\ Int64.in_range (position (engine_step_tick h tick).2).
Proof.
  intros Hr.
  assert (Hpos : position (engine_step_tick h tick).2
                 = position (spec_scan tick (live_orders h)
                               (set_clock h (tick_ts_ms tick) (tick_price_tick tick)))).
  { unfold live_orders. rewrite spec_scan_live, <- engine_step_tick_account.
    reflexivity. }
  rewrite Hpos.
  destruct (spec_scan_position tick (live_orders h)
              (set_clock h (tick_ts_ms tick) (tick_price_tick tick)) Hr)
    as [H1 H2].
  split; [exact H2|exact H1].
Qed.

Lemma step_tick_position_witness :
  Int64.in_range (position scenario_S2)
  /\ position
       (engine_step_tick
          (engine_place_order scenario_S2 (market_order 3 SIDE_SELL 6000000)).2
          (sample_tick 3 130)).2
     = Int64.wrap (4000000 + - 6000000).
Proof.
  assert (Hr : Int64.in_range
                 (position (engine_place_order scenario_S2
                              (market_order 3 SIDE_SELL 6000000)).2))
    by (vm_compute; split; discriminate).
  split; [vm_compute; split; discriminate|].
  exact (proj1 (step_tick_position
                  (engine_place_order scenario_S2
                     (market_order 3 SIDE_SELL 6000000)).2
                  (sample_tick 3 130) Hr)).
Defined.

(** ** C9: the position of the public snapshot *)

(** The kernel's own [snapshot_t] carries the stored [int64_t] position,
    which the host wrapper descales: after a fill it is the position
    before it plus the signed quantity of the order (modulo [2^64]). *)
Lemma engine_get_snapshot_position (h : engine_handle_t) (o : order_t)
    (p_t : Z) :
  snap_position (engine_get_snapshot h) = position h
  /\ snap_position (engine_get_snapshot (execute_fill h o p_t))
     = Int64.wrap (position h + spec_delta (order_side o) (order_qty o)).
Proof.
  split; [reflexivity|]. unfold engine_get_snapshot. simpl.
  apply execute_fill_position.
Qed.

(** After a buy of 1.5 units the kernel holds 1500000 micro-units and the
    public snapshot shows 1.5, that is 3/2. *)
Example snapshot_position_one_and_a_half :
  position long_handle = 1500000
  /\ snapshot_position (get_snapshot long_handle)
     = fdiv (of_int64 3) (of_int64 2).
Proof. vm_compute. split; reflexivity. Qed.

(** C9.  For every handle, the position of the public snapshot is the
    stored micro-unit position, converted to [double] and divided by
    1,000,000: the integer of the kernel's [snapshot_t] is not what
    [get_snapshot] returns.  So it is after a fill, where the stored
    position has moved by the signed micro-unit quantity of the order,
    after a tick, where it has moved by the signed quantities of the live
    orders that fill, and on a flat position, which reads 0.  The other
    fields are those of the kernel's snapshot, which are in real units
    already. *)
Theorem snapshot_position_real_units (h : engine_handle_t) (o : order_t)
    (p_t : Z) (tick : tick_event_t) :
  snapshot_position (get_snapshot h) = fdiv (of_int64 (position h)) million
  /\ snapshot_position (get_snapshot (execute_fill h o p_t))
     = fdiv (of_int64
               (Int64.wrap (position h + spec_delta (order_side o) (order_qty o))))
         million
  /\ (Int64.in_range (position h) ->
      snapshot_position (get_snapshot (engine_step_tick h tick).2)
      = fdiv (of_int64
                (Int64.wrap (position h + total_delta tick (live_orders h))))
          million)
  /\ (position h = 0 -> snapshot_position (get_snapshot h) = zero)
  /\ snapshot_ts_ms (get_snapshot h) = current_ts_ms h
  /\ snapshot_cash (get_snapshot h) = cash h
  /\ snapshot_avg_entry_price (get_snapshot h) = avg_entry_price h
  /\ snapshot_realized_pnl (get_snapshot h) = realized_pnl h
  /\ snapshot_unrealized_pnl (get_snapshot h)
     = snap_unrealized_pnl (engine_get_snapshot h)
  /\ snapshot_equity (get_snapshot h) = snap_equity (engine_get_snapshot h).
Proof.
  destruct (engine_get_snapshot_position h o p_t) as [H1 H2].
  unfold get_snapshot. cbn [snapshot_position]. rewrite H1, H2.
  split; [reflexivity|]. split; [reflexivity|]. split.
  - intros Hr.
    destruct (engine_get_snapshot_position (engine_step_tick h tick).2 o p_t)
      as [-> _].
    assert (Hpos : position (engine_step_tick h tick).2
                   = position (spec_scan tick (live_orders h)
                                 (set_clock h (tick_ts_ms tick)
                                    (tick_price_tick tick)))).
    { unfold live_orders. rewrite spec_scan_live, <- engine_step_tick_account.
      reflexivity. }
    rewrite Hpos.
    destruct (spec_scan_position tick (live_orders h)
                (set_clock h (tick_ts_ms tick) (tick_price_tick tick)) Hr)
      as [_ ->].
    reflexivity.
  - split; [intros ->; reflexivity|]. repeat split.
Qed.

(** ** The configuration and [engine_reset] *)

Lemma spec_scan_config (tick : tick_event_t) (ts : list tracked_order_t) :
  forall h : engine_handle_t, config (spec_scan tick ts h) = config h.
Proof.
  unfold spec_scan. induction ts as [|t ts IH]; intros h; [reflexivity|].
  simpl. rewrite IH. unfold spec_fill_one.
  destruct (spec_fills tick t); [apply execute_fill_config|reflexivity].
Qed.

Lemma apply_operation_config (h : engine_handle_t) (op : operation) :
  config (apply_operation h op) = config h.
Proof.
  destruct op as [|o|id|tick]; simpl.
  - reflexivity.
  - unfold engine_place_order.
    destruct (MAX_OPEN_ORDERS <=? order_count h)%nat; reflexivity.
  - unfold engine_cancel_order.
    destruct (cancel_loop_spec id (order_count h) 0 h)
      as [(_ & -> & _)|(_ & j & t & _ & _ & _ & _ & ->)]; reflexivity.
  - change (config (engine_step_tick h tick).2)
      with (config (set_orders (engine_step_tick h tick).2 (orders h) (order_count h))).
    rewrite engine_step_tick_account, spec_scan_config. reflexivity.
Qed.

Lemma run_config (ops : list operation) :
  forall h : engine_handle_t, config (run ops h) = config h.
Proof.
  unfold run. induction ops as [|op ops IH]; intros h; [reflexivity|].
  simpl. rewrite IH. apply apply_operation_config.
Qed.

(** ** C6: the snapshot *)

(** The snapshot of a handle: every field is read from the handle, the
    unrealized P&L is 0 on a flat position and the difference of the two
    values of the position otherwise, and the equity is the cash of the
    handle plus that unrealized P&L. *)
Lemma snapshot_of_handle (h : engine_handle_t) :
  snap_ts_ms (engine_get_snapshot h) = current_ts_ms h
  /\ snap_cash (engine_get_snapshot h) = cash h
  /\ snap_position (engine_get_snapshot h) = position h
  /\ snap_avg_entry_price (engine_get_snapshot h) = avg_entry_price h
  /\ snap_realized_pnl (engine_get_snapshot h) = realized_pnl h
  /\ snap_unrealized_pnl (engine_get_snapshot h)
     = (if position h =? 0 then zero
        else spec_unrealized (config h) (position h) (avg_entry_price h)
               (last_tick_price h))
  /\ snap_equity (engine_get_snapshot h)
     = fadd (cash h)
         (if position h =? 0 then zero
          else spec_unrealized (config h) (position h) (avg_entry_price h)
                 (last_tick_price h)).
Proof.
  unfold engine_get_snapshot, calculate_unrealized_pnl, spec_unrealized.
  cbn [snap_ts_ms snap_cash snap_position snap_avg_entry_price
       snap_realized_pnl snap_unrealized_pnl snap_equity].
  repeat split; destruct (position h =? 0); reflexivity.
Qed.

(** C6.  After every sequence of operations from a freshly created handle
    (a reset handle is the handle created for its configuration), the
    snapshot reports the cash and the position that the handle holds, and
    its equity is its cash plus its unrealized P&L.  The unrealized P&L is
    0 when the position of the handle is 0 and otherwise
    [(position/1e6) * last_tick_price * tick_size
       - (position/1e6) * avg_entry_price * tick_size],
    the product [(position/1e6) * (last_tick_price - avg_entry_price) *
    tick_size] distributed over the difference as section 4.6 writes it,
    computed from the position, the entry price and the last tick price
    of the handle (and the tick size of its configuration) alone. *)
Theorem snapshot_conservation (cfg : config_t) (h0 : engine_handle_t)
    (ops : list operation) :
  let h := run ops (initial_handle cfg) in
  let s := engine_get_snapshot h in
  engine_reset h0 = initial_handle (config h0)
  /\ snap_cash s = cash h
  /\ snap_position s = position h
  /\ snap_equity s = fadd (snap_cash s) (snap_unrealized_pnl s)
  /\ snap_equity s
     = fadd (cash h)
         (if position h =? 0 then zero
          else spec_unrealized (config h) (position h) (avg_entry_price h)
                 (last_tick_price h))
  /\ (position h = 0 -> snap_unrealized_pnl s = zero)
  /\ (position h <> 0 ->
      snap_unrealized_pnl s
      = spec_unrealized (config h) (position h) (avg_entry_price h)
          (last_tick_price h))
  /\ (position h <> 0 ->
      snap_unrealized_pnl s
      = fsub (fmul (fmul (fdiv (of_int64 (position h)) million)
                      (of_int64 (last_tick_price h)))
                (tick_size cfg))
           (fmul (fmul (fdiv (of_int64 (position h)) million)
                    (avg_entry_price h))
              (tick_size cfg))).
Proof.
  intros h s. subst s.
  destruct (snapshot_of_handle h) as (_ & Hc & Hp & _ & _ & Hu & He).
  assert (Hcfg : config h = cfg) by (subst h; apply run_config).
  split; [reflexivity|]. split; [exact Hc|]. split; [exact Hp|].
  split; [rewrite He, Hc, Hu; reflexivity|]. split; [exact He|].
  split; [|split].
  - intros H0. rewrite Hu, H0. reflexivity.
  - intros H0. rewrite Hu. apply Z.eqb_neq in H0. rewrite H0. reflexivity.
  - intros H0. rewrite Hu. apply Z.eqb_neq in H0. rewrite H0, <- Hcfg.
    reflexivity.
Qed.

(** ** [engine_reset] *)

(** X9.  No operation changes the configuration of a handle, and
    [engine_reset] after any sequence of operations gives back exactly the
    handle [engine_new] creates for that configuration: cash at
    [initial_cash], no position, no open order. *)
Theorem reset_restores_new_handle (cfg : config_t) (ops : list operation)
    (h : engine_handle_t) :
  config (run ops h) = config h
  /\ engine_reset (run ops h) = initial_handle (config h)
  /\ Some (engine_reset (run ops (initial_handle cfg))) = engine_new (Some cfg).
Proof.
  assert (Hc : forall h0 : engine_handle_t, config (run ops h0) = config h0).
  { unfold run. induction ops as [|op ops IH]; intros h0; [reflexivity|].
    simpl. rewrite IH. apply apply_operation_config. }
  split; [apply Hc|]. split.
  - unfold engine_reset. rewrite Hc. reflexivity.
  - unfold engine_reset. rewrite Hc. reflexivity.
Qed.

(** ** Cancellation and the live orders *)

Lemma drop_first_none (id : Z) (ts : list tracked_order_t) :
  Forall (fun t => order_id (order t) <> id) ts -> drop_first_with_id id ts = ts.
Proof.
  induction 1 as [|t ts Ht _ IH]; [reflexivity|].
  simpl. destruct (Z.eqb_spec (order_id (order t)) id); [contradiction|].
  rewrite IH. reflexivity.
Qed.

Lemma drop_first_middle (id : Z) (ts ts' : list tracked_order_t)
    (t : tracked_order_t) :
  Forall (fun t' => order_id (order t') <> id) ts ->
  order_id (order t) = id ->
  drop_first_with_id id (ts ++ t :: ts') = ts ++ ts'.
Proof.
  intros Hts Hid. induction Hts as [|t0 ts Ht0 _ IH]; simpl.
  - rewrite Hid, Z.eqb_refl. reflexivity.
  - destruct (Z.eqb_spec (order_id (order t0)) id); [contradiction|].
    rewrite IH. reflexivity.
Qed.

Lemma engine_cancel_order_frame (h : engine_handle_t) (id : Z) :
  exists os : list tracked_order_t,
    (engine_cancel_order h id).2 = set_orders h os (order_count h).
Proof.
  unfold engine_cancel_order.
  destruct (cancel_loop_spec id (order_count h) 0 h)
    as [(_ & -> & _)|(_ & j & t & _ & _ & _ & _ & ->)].
  - exists (orders h). symmetry. apply set_orders_id.
  - eexists. reflexivity.
Qed.

(** The live orders after a cancellation, successful or not. *)
Lemma live_orders_after_cancel (h : engine_handle_t) (id : Z) :
  live_orders (engine_cancel_order h id).2
  = drop_first_with_id id (live_orders h).
Proof.
  unfold engine_cancel_order.
  destruct (cancel_loop_first id (order_count h) 0 h)
    as [(_ & -> & Hno)|(_ & j & t & Hj & Hl & Ha & Hid & Hfirst & ->)].
  - symmetry. apply drop_first_none, Forall_forall. intros t Ht.
    unfold live_orders, used_slots in Ht.
    apply list_elem_of_filter in Ht as [Ha Ht].
    apply list_elem_of_lookup in Ht as [k Hk].
    apply lookup_take_Some in Hk as [Hk Hlt].
    apply (Hno k t); [lia|exact Hk|exact Ha].
  - unfold live_orders, used_slots. cbn [orders order_count set_orders].
    assert (Hu : take (order_count h) (orders h) !! j = Some t)
      by (rewrite lookup_take_lt by lia; exact Hl).
    rewrite take_insert_lt by lia.
    rewrite insert_take_drop by (apply lookup_lt_Some in Hu; exact Hu).
    rewrite <- (take_drop_middle _ _ _ Hu) at 3.
    rewrite !filter_app.
    rewrite filter_cons_False by (simpl; discriminate).
    rewrite filter_cons_True by exact Ha.
    symmetry. apply drop_first_middle; [|exact Hid].
    apply Forall_forall. intros t' Ht'.
    apply list_elem_of_filter in Ht' as [Ha' Ht'].
    apply list_elem_of_lookup in Ht' as [k Hk].
    apply lookup_take_Some in Hk as [Hk Hlt].
    apply lookup_take_Some in Hk as [Hk _].
    apply (Hfirst k t'); [lia|exact Hk|exact Ha'].
Qed.

(** X10.  A cancelled order never fills: a step after [engine_cancel_order]
    leaves the account of the fills of the live orders without the first
    one of the cancelled id, and keeps the survivors among those; when no
    live order has the id, nothing is dropped. *)
Theorem cancelled_order_never_fills (h : engine_handle_t) (id : Z)
    (tick : tick_event_t) :
  set_orders (engine_step_tick (engine_cancel_order h id).2 tick).2
    (orders h) (order_count h)
  = spec_scan tick (drop_first_with_id id (live_orders h))
      (set_clock h (tick_ts_ms tick) (tick_price_tick tick))
  /\ used_slots (engine_step_tick (engine_cancel_order h id).2 tick).2
     = spec_survivors tick (drop_first_with_id id (live_orders h))
  /\ (Forall (fun t => order_id (order t) <> id) (live_orders h) ->
      drop_first_with_id id (live_orders h) = live_orders h).
Proof.
  split; [|split; [|apply drop_first_none]].
  - destruct (engine_cancel_order_frame h id) as [os Hos].
    rewrite <- live_orders_after_cancel.
    unfold live_orders. rewrite spec_scan_live.
    rewrite <- (set_orders_twice (engine_step_tick (engine_cancel_order h id).2 tick).2
                  (orders (engine_cancel_order h id).2) (orders h)
                  (order_count (engine_cancel_order h id).2) (order_count h)).
    rewrite engine_step_tick_account, <- spec_scan_set_orders.
    rewrite Hos. reflexivity.
  - rewrite <- live_orders_after_cancel, engine_step_tick_used_slots.
    unfold live_orders. rewrite spec_survivors_live. reflexivity.
Qed.

(** X11.  Placing an order whose id no live order has and cancelling it at
    once succeeds and gives back the live orders and the account as they
    were; only the count of slots in use has grown by one, until the next
    step compacts it. *)
Theorem place_then_cancel (h : engine_handle_t) (o : order_t) :
  well_formed h ->
  (order_count h < MAX_OPEN_ORDERS)%nat ->
  Forall (fun t => order_id (order t) <> order_id o) (live_orders h) ->
  (engine_place_order h o).1 = 0
  /\ (engine_cancel_order (engine_place_order h o).2 (order_id o)).1 = 0
  /\ live_orders (engine_cancel_order (engine_place_order h o).2 (order_id o)).2
     = live_orders h
  /\ set_orders (engine_cancel_order (engine_place_order h o).2 (order_id o)).2
       (orders h) (order_count h) = h
  /\ order_count (engine_cancel_order (engine_place_order h o).2 (order_id o)).2
     = S (order_count h).
Proof.
  intros Hwf Hroom Hfresh.
  pose proof (engine_place_order_result h o Hwf) as Hp.
  destruct (Nat.leb_spec MAX_OPEN_ORDERS (order_count h)) as [Hfull|_]; [lia|].
  destruct Hp as (H1 & H2 & H3 & H4 & H5).
  set (hp := (engine_place_order h o).2) in *.
  assert (Hlive : live_orders hp = live_orders h ++ [placed o]).
  { unfold live_orders. rewrite H2, filter_app. reflexivity. }
  destruct (engine_cancel_order_frame hp (order_id o)) as [os Hos].
  split; [exact H1|]. split; [|split; [|split]].
  - unfold engine_cancel_order.
    destruct (cancel_loop_first (order_id o) (order_count hp) 0 hp)
      as [(_ & _ & Hno)|(Hok & _)]; [|exact Hok].
    exfalso. apply (Hno (order_count h) (placed o)); [lia| |reflexivity|reflexivity].
    subst hp. unfold engine_place_order.
    destruct (Nat.leb_spec MAX_OPEN_ORDERS (order_count h)); [lia|].
    cbn [snd orders set_orders]. apply list_lookup_insert_eq.
    destruct Hwf as [Hlen _]. lia.
  - rewrite live_orders_after_cancel, Hlive.
    rewrite (drop_first_middle (order_id o) (live_orders h) [] (placed o) Hfresh eq_refl).
    apply app_nil_r.
  - rewrite Hos, set_orders_twice. exact H4.
  - rewrite Hos. exact H3.
Qed.

Lemma place_then_cancel_witness :
  well_formed one_order_handle
  /\ (order_count one_order_handle < MAX_OPEN_ORDERS)%nat
  /\ Forall (fun t => order_id (order t) <> order_id (market_order 8 SIDE_SELL 5))
       (live_orders one_order_handle)
  /\ live_orders
       (engine_cancel_order
          (engine_place_order one_order_handle (market_order 8 SIDE_SELL 5)).2
          (order_id (market_order 8 SIDE_SELL 5))).2
     = live_orders one_order_handle.
Proof.
  assert (H1 : well_formed one_order_handle).
  { split; [reflexivity|]. vm_compute. lia. }
  assert (H2 : (order_count one_order_handle < MAX_OPEN_ORDERS)%nat)
    by (vm_compute; lia).
  assert (H3 : Forall (fun t => order_id (order t)
                                <> order_id (market_order 8 SIDE_SELL 5))
                 (live_orders one_order_handle)).
  { vm_compute. constructor; [discriminate|constructor]. }
  split; [exact H1|]. split; [exact H2|]. split; [exact H3|].
  exact (proj1 (proj2 (proj2 (place_then_cancel one_order_handle
                                 (market_order 8 SIDE_SELL 5) H1 H2 H3)))).
Defined.

(** ** Placements up to the capacity *)

(** X12.  Of a list of orders placed one after the other, those that find a
    free slot are accepted, in order, behind the slots in use, and all the
    later ones are refused with -2; the account is not touched. *)
Theorem placements_up_to_capacity (os : list order_t) :
  forall h : engine_handle_t,
    well_formed h ->
    (place_all h os).1
    = replicate (length os `min` (MAX_OPEN_ORDERS - order_count h)) 0
      ++ replicate (length os - (MAX_OPEN_ORDERS - order_count h)) (-2)
    /\ used_slots (place_all h os).2
       = used_slots h ++ map placed (take (MAX_OPEN_ORDERS - order_count h) os)
    /\ set_orders (place_all h os).2 (orders h) (order_count h) = h
    /\ well_formed (place_all h os).2.
Proof.
  induction os as [|o os IH]; intros h Hwf.
  - simpl. rewrite take_nil, app_nil_r. repeat split; try apply Hwf.
    apply set_orders_id.
  - pose proof (engine_place_order_result h o Hwf) as Hp.
    simpl place_all. cbn [fst snd].
    destruct (Nat.leb_spec MAX_OPEN_ORDERS (order_count h)) as [Hfull|Hroom].
    + rewrite Hp. cbn [fst snd]. destruct (IH h Hwf) as (H1 & H2 & H3 & H4).
      rewrite H1, H2.
      replace (MAX_OPEN_ORDERS - order_count h)%nat with 0%nat by lia.
      rewrite !Nat.min_0_r, !Nat.sub_0_r, !take_0. simpl. done.
    + destruct Hp as (P1 & P2 & P3 & P4 & P5).
      destruct (IH _ P5) as (H1 & H2 & H3 & H4).
      split; [|split; [|split; [|exact H4]]].
      * rewrite P1, H1, P3.
        replace (MAX_OPEN_ORDERS - order_count h)%nat
          with (S (MAX_OPEN_ORDERS - S (order_count h))) by lia.
        reflexivity.
      * rewrite H2, P2, P3.
        replace (MAX_OPEN_ORDERS - order_count h)%nat
          with (S (MAX_OPEN_ORDERS - S (order_count h))) by lia.
        simpl. rewrite <- app_assoc. reflexivity.
      * rewrite <- (set_orders_twice (place_all (engine_place_order h o).2 os).2
                      (orders (engine_place_order h o).2) (orders h)
                      (order_count (engine_place_order h o).2) (order_count h)).
        rewrite H3. exact P4.
Qed.

Lemma placements_up_to_capacity_witness :
  well_formed full_book
  /\ (place_all full_book
        [market_order 1 SIDE_BUY 1; market_order 2 SIDE_SELL 1]).1
     = replicate (2 `min` (MAX_OPEN_ORDERS - order_count full_book)) 0
       ++ replicate (2 - (MAX_OPEN_ORDERS - order_count full_book)) (-2).
Proof.
  assert (Hwf : well_formed full_book).
  { split; vm_compute; [reflexivity|lia]. }
  split; [exact Hwf|].
  exact (proj1 (placements_up_to_capacity
                  [market_order 1 SIDE_BUY 1; market_order 2 SIDE_SELL 1]
                  full_book Hwf)).
Defined.

(** ** Positions under a budget of quantity *)

(** A fill of a positive quantity that overflows nothing moves the
    position by at most the quantity, and leaves a zero entry price
    whenever it leaves the account flat. *)
Lemma execute_fill_flat (h : engine_handle_t) (o : order_t) (p_t : Z) :
  0 < order_qty o ->
  Z.abs (position h) + order_qty o <= Int64.max_signed ->
  Z.abs (position (execute_fill h o p_t)) <= Z.abs (position h) + order_qty o
  /\ (position (execute_fill h o p_t) = 0 ->
      avg_entry_price (execute_fill h o p_t) = zero).
Proof.
  intros Hq Hb.
  assert (Hmax : Int64.max_signed = 2 ^ 63 - 1) by reflexivity.
  assert (Hmin : Int64.min_signed = - 2 ^ 63) by reflexivity.
  assert (Hd : Z.abs (spec_delta (order_side o) (order_qty o)) = order_qty o).
  { unfold spec_delta. destruct (order_side o); lia. }
  assert (Hpos : position (execute_fill h o p_t)
                 = position h + spec_delta (order_side o) (order_qty o)).
  { rewrite execute_fill_position. apply wrap_in_range.
    unfold Int64.in_range. lia. }
  split; [lia|]. intros H0. rewrite Hpos in H0.
  assert (Hopp : (0 < position h /\ order_side o = SIDE_SELL)
                 \/ (position h < 0 /\ order_side o = SIDE_BUY)).
  { unfold spec_delta in H0. destruct (order_side o); [right|left]; split;
      try reflexivity; lia. }
  destruct (execute_fill_reduce h o p_t) as (_ & _ & Ha);
    [lia|exact Hq|exact Hopp|lia|].
  rewrite Ha. apply Z.eqb_eq in H0. rewrite H0. reflexivity.
Qed.

Lemma book_qty_app (ts ts' : list tracked_order_t) :
  book_qty (ts ++ ts') = book_qty ts + book_qty ts'.
Proof.
  unfold book_qty. induction ts as [|t ts IH]; simpl; [reflexivity|].
  rewrite IH. lia.
Qed.

Lemma book_qty_nonneg (ts : list tracked_order_t) :
  Forall (fun t => 0 < order_qty (order t)) ts -> 0 <= book_qty ts.
Proof.
  unfold book_qty. induction 1 as [|t ts Ht _ IH]; simpl; lia.
Qed.

Lemma drop_first_positive (id : Z) (ts : list tracked_order_t) :
  Forall (fun t => 0 < order_qty (order t)) ts ->
  Forall (fun t => 0 < order_qty (order t)) (drop_first_with_id id ts)
  /\ book_qty (drop_first_with_id id ts) <= book_qty ts.
Proof.
  unfold book_qty. induction 1 as [|t ts Ht Hts IH]; simpl.
  - split; [constructor|lia].
  - destruct (order_id (order t) =? id).
    + split; [exact Hts|lia].
    + destruct IH as [IH1 IH2]. split; [constructor; assumption|simpl; lia].
Qed.

(** The scan of live orders of positive quantity: the position and the
    quantity still in the book together do not grow, and a flat position
    keeps a zero entry price. *)
Lemma spec_scan_budget (tick : tick_event_t) (ts : list tracked_order_t) :
  Forall (fun t => active t = true /\ 0 < order_qty (order t)) ts ->
  forall h : engine_handle_t,
    Z.abs (position h) + book_qty ts <= Int64.max_signed ->
    (position h = 0 -> avg_entry_price h = zero) ->
    Z.abs (position (spec_scan tick ts h)) + book_qty (spec_survivors tick ts)
    <= Z.abs (position h) + book_qty ts
    /\ (position (spec_scan tick ts h) = 0 ->
        avg_entry_price (spec_scan tick ts h) = zero)
    /\ Forall (fun t => 0 < order_qty (order t)) (spec_survivors tick ts).
Proof.
  unfold spec_scan, spec_survivors, book_qty.
  induction 1 as [|t ts [Ha Hq] Hts IH]; intros h Hb Hflat.
  - simpl. split; [lia|]. split; [exact Hflat|constructor].
  - simpl in Hb. simpl fold_left. unfold spec_fill_one at 2 4 6, spec_fills.
    rewrite Ha. simpl andb.
    destruct (spec_eligible (order t) tick) eqn:He.
    + rewrite (filter_cons_False _ t) by (rewrite He; intros [_ ?]; discriminate).
      pose proof (Z.abs_nonneg (position h)).
      assert (Hts' : 0 <= book_qty ts).
      { apply book_qty_nonneg. eapply Forall_impl; [exact Hts|].
        intros t' [_ ?]. assumption. }
      unfold book_qty in Hts'.
      set (h1 := execute_fill h (order t)
                   (apply_spread h (spec_fill_base (order t) tick)
                      (order_side (order t)))).
      destruct (execute_fill_flat h (order t)
                  (apply_spread h (spec_fill_base (order t) tick)
                     (order_side (order t))) Hq) as [H1 H2]; [lia|].
      fold h1 in H1, H2.
      destruct (IH h1) as (I1 & I2 & I3); [lia|exact H2|].
      split; [cbn [foldr]; lia|]. split; [exact I2|exact I3].
    + rewrite (filter_cons_True _ t) by (rewrite Ha, He; done).
      destruct (IH h) as (I1 & I2 & I3); [lia|exact Hflat|].
      split; [cbn [foldr]; lia|]. split; [exact I2|]. constructor; assumption.
Qed.

Lemma live_orders_active (h : engine_handle_t) :
  Forall (fun t => active t = true) (live_orders h).
Proof.
  apply Forall_forall. intros t Ht. unfold live_orders in Ht.
  apply list_elem_of_filter in Ht as [Ha _]. exact Ha.
Qed.

Lemma engine_step_tick_live (h : engine_handle_t) (tick : tick_event_t) :
  live_orders (engine_step_tick h tick).2 = spec_survivors tick (live_orders h)
  /\ position (engine_step_tick h tick).2
     = position (spec_scan tick (live_orders h)
                   (set_clock h (tick_ts_ms tick) (tick_price_tick tick)))
  /\ avg_entry_price (engine_step_tick h tick).2
     = avg_entry_price (spec_scan tick (live_orders h)
                          (set_clock h (tick_ts_ms tick) (tick_price_tick tick))).
Proof.
  split.
  - unfold live_orders at 1. rewrite engine_step_tick_used_slots.
    rewrite survivors_all_active. unfold live_orders.
    rewrite spec_survivors_live. reflexivity.
  - unfold live_orders. rewrite spec_scan_live, <- engine_step_tick_account.
    split; reflexivity.
Qed.

Lemma apply_operation_kept (B : Z) (h : engine_handle_t) (op : operation) :
  kept B h ->
  match op with OpPlace o => 0 < order_qty o | _ => True end ->
  B + placed_qty [op] <= Int64.max_signed ->
  kept (B + placed_qty [op]) (apply_operation h op).
Proof.
  intros (Hwf & Hpos & Hb & Hflat) Hop Hmax.
  pose proof (book_qty_nonneg _ Hpos) as Hnn.
  pose proof (Z.abs_nonneg (position h)) as Habs.
  destruct op as [|o|id|tick]; simpl in Hmax |- *.
  - split; [apply initial_handle_well_formed|].
    split; [constructor|]. split; [|reflexivity].
    change (live_orders (engine_reset h)) with (@nil tracked_order_t).
    simpl. lia.
  - pose proof (engine_place_order_result h o Hwf) as Hp.
    destruct (Nat.leb_spec MAX_OPEN_ORDERS (order_count h)) as [Hfull|Hroom].
    + rewrite Hp. cbn [snd]. split; [exact Hwf|]. split; [exact Hpos|].
      split; [lia|exact Hflat].
    + destruct Hp as (P1 & P2 & P3 & P4 & P5).
      assert (Hlive : live_orders (engine_place_order h o).2
                      = live_orders h ++ [placed o]).
      { unfold live_orders. rewrite P2, filter_app. reflexivity. }
      assert (Hsame : position (engine_place_order h o).2 = position h
                      /\ avg_entry_price (engine_place_order h o).2
                         = avg_entry_price h).
      { unfold engine_place_order.
        destruct (MAX_OPEN_ORDERS <=? order_count h)%nat; split; reflexivity. }
      destruct Hsame as [Hp1 Hp2].
      split; [exact P5|]. rewrite Hlive, Hp1, Hp2, book_qty_app.
      split; [apply Forall_app; split; [exact Hpos|constructor; [exact Hop|constructor]]|].
      split; [unfold book_qty at 2; simpl; lia|exact Hflat].
  - destruct (engine_cancel_order_frame h id) as [os Hos].
    destruct (drop_first_positive id _ Hpos) as [D1 D2].
    split; [apply engine_cancel_order_well_formed, Hwf|].
    rewrite live_orders_after_cancel, Hos.
    cbn [position avg_entry_price set_orders].
    split; [exact D1|]. split; [lia|exact Hflat].
  - destruct (engine_step_tick_live h tick) as (L1 & L2 & L3).
    assert (Hact : Forall (fun t => active t = true /\ 0 < order_qty (order t))
                     (live_orders h)).
    { apply Forall_and. split; [apply live_orders_active|exact Hpos]. }
    destruct (spec_scan_budget tick _ Hact
                (set_clock h (tick_ts_ms tick) (tick_price_tick tick)))
      as (S1 & S2 & S3); [simpl; lia|exact Hflat|].
    split; [apply engine_step_tick_well_formed, Hwf|].
    rewrite L1, L2, L3. split; [exact S3|]. split; [|exact S2].
    simpl in S1. lia.
Qed.

Lemma run_kept (ops : list operation) :
  forall (B : Z) (h : engine_handle_t),
    kept B h -> positive_placements ops ->
    B + placed_qty ops <= Int64.max_signed ->
    kept (B + placed_qty ops) (run ops h).
Proof.
  unfold run. induction ops as [|op ops IH]; intros B h Hk Hp Hmax.
  - simpl. rewrite Z.add_0_r. exact Hk.
  - apply Forall_cons in Hp as [Hop Hp].
    assert (Hq : 0 <= placed_qty ops).
    { clear -Hp. induction Hp as [|op ops Hop _ IH]; simpl; [lia|].
      destruct op; lia. }
    assert (Hsplit : B + placed_qty (op :: ops)
                     = B + placed_qty [op] + placed_qty ops).
    { simpl. destruct op; lia. }
    rewrite Hsplit in *. simpl fold_left. apply IH; [|exact Hp|exact Hmax].
    apply apply_operation_kept; [exact Hk|exact Hop|lia].
Qed.

(** X13.  When every order placed has a positive quantity and the
    quantities placed add up to at most [INT64_MAX], then after any
    sequence of operations on a new handle the absolute position plus the
    quantity of the live orders is at most the quantity placed (so no
    position ever overflows), every live order has a positive quantity,
    and a flat position has a zero entry price. *)
Theorem positions_within_placed_quantity (cfg : config_t) (ops : list operation) :
  positive_placements ops ->
  placed_qty ops <= Int64.max_signed ->
  Z.abs (position (run ops (initial_handle cfg)))
    + book_qty (live_orders (run ops (initial_handle cfg)))
  <= placed_qty ops
  /\ Int64.in_range (position (run ops (initial_handle cfg)))
  /\ Forall (fun t => 0 < order_qty (order t))
       (live_orders (run ops (initial_handle cfg)))
  /\ (position (run ops (initial_handle cfg)) = 0 ->
      avg_entry_price (run ops (initial_handle cfg)) = zero).
Proof.
  intros Hp Hmax.
  assert (H0 : kept 0 (initial_handle cfg)).
  { split; [apply initial_handle_well_formed|]. split; [constructor|].
    split; [|reflexivity].
    change (live_orders (initial_handle cfg)) with (@nil tracked_order_t).
    simpl. lia. }
  destruct (run_kept ops 0 (initial_handle cfg) H0 Hp Hmax) as (_ & K2 & K3 & K4).
  pose proof (book_qty_nonneg _ K2) as Hnn.
  simpl in K3. split; [exact K3|]. split; [|split; [exact K2|exact K4]].
  unfold Int64.in_range.
  assert (Int64.max_signed = 2 ^ 63 - 1) by reflexivity.
  assert (Int64.min_signed = - 2 ^ 63) by reflexivity. lia.
Qed.

Lemma positions_within_placed_quantity_witness :
  positive_placements
    [OpPlace (market_order 1 SIDE_BUY 1000000); OpStep (sample_tick 1 100);
     OpPlace (limit_order 2 SIDE_SELL 1000000 110); OpStep (sample_tick 2 120)]
  /\ placed_qty
       [OpPlace (market_order 1 SIDE_BUY 1000000); OpStep (sample_tick 1 100);
        OpPlace (limit_order 2 SIDE_SELL 1000000 110); OpStep (sample_tick 2 120)]
     <= Int64.max_signed
  /\ Int64.in_range
       (position
          (run [OpPlace (market_order 1 SIDE_BUY 1000000);
                OpStep (sample_tick 1 100);
                OpPlace (limit_order 2 SIDE_SELL 1000000 110);
                OpStep (sample_tick 2 120)] (initial_handle sample_config))).
Proof.
  assert (H1 : positive_placements
                 [OpPlace (market_order 1 SIDE_BUY 1000000);
                  OpStep (sample_tick 1 100);
                  OpPlace (limit_order 2 SIDE_SELL 1000000 110);
                  OpStep (sample_tick 2 120)]).
  { repeat constructor. }
  assert (H2 : placed_qty
                 [OpPlace (market_order 1 SIDE_BUY 1000000);
                  OpStep (sample_tick 1 100);
                  OpPlace (limit_order 2 SIDE_SELL 1000000 110);
                  OpStep (sample_tick 2 120)] <= Int64.max_signed)
    by (vm_compute; discriminate).
  split; [exact H1|]. split; [exact H2|].
  exact (proj1 (proj2 (positions_within_placed_quantity sample_config _ H1 H2))).
Defined.

(** ** An order of quantity zero *)

Lemma place_and_fill_eq (cfg : config_t) (o : order_t) (tick : tick_event_t) :
  set_orders (place_and_fill cfg o tick)
    (orders (initial_handle cfg)) (order_count (initial_handle cfg))
  = spec_fill_one tick
      (set_clock (initial_handle cfg) (tick_ts_ms tick) (tick_price_tick tick))
      (placed o).
Proof.
  unfold place_and_fill, run. cbn [fold_left apply_operation].
  set (h0 := initial_handle cfg).
  pose proof (engine_place_order_result h0 o (initial_handle_well_formed cfg)) as Hp.
  destruct (Nat.leb_spec MAX_OPEN_ORDERS (order_count h0)) as [Hfull|_];
    [unfold MAX_OPEN_ORDERS in Hfull; simpl in Hfull; lia|].
  destruct Hp as (_ & P2 & _ & P4 & _).
  set (hp := (engine_place_order h0 o).2) in *.
  rewrite <- (set_orders_twice (engine_step_tick hp tick).2
                (orders hp) (orders h0) (order_count hp) (order_count h0)).
  rewrite engine_step_tick_account, P2.
  change (used_slots h0) with (@nil tracked_order_t). simpl app.
  rewrite <- spec_scan_set_orders.
  replace (set_orders (set_clock hp (tick_ts_ms tick) (tick_price_tick tick))
             (orders h0) (order_count h0))
    with (set_clock h0 (tick_ts_ms tick) (tick_price_tick tick))
    by (rewrite <- P4 at 1; reflexivity).
  reflexivity.
Qed.

Lemma spec_fill_one_market (tick : tick_event_t) (h : engine_handle_t)
    (id : Z) (s : side_t) (q : Z) :
  spec_fill_one tick h (placed (market_order id s q))
  = execute_fill h (market_order id s q) (apply_spread h (tick_price_tick tick) s).
Proof. reflexivity. Qed.

(** X14.  An order of quantity 0 is accepted and, once it fills, leaves a
    new account with position 0 and an entry price that is not 0 but the
    tick of the fill: the zero entry price of a flat account rests on the
    quantities being positive, which the kernel does not check. *)
Theorem zero_quantity_order_sets_entry_price (cfg : config_t) (id : Z)
    (s : side_t) (tick : tick_event_t) :
  (engine_place_order (initial_handle cfg) (market_order id s 0)).1 = 0
  /\ position (place_and_fill cfg (market_order id s 0) tick) = 0
  /\ avg_entry_price (place_and_fill cfg (market_order id s 0) tick)
     = of_int64 (apply_spread (initial_handle cfg) (tick_price_tick tick) s)
  /\ live_orders (place_and_fill cfg (market_order id s 0) tick) = [].
Proof.
  split; [reflexivity|].
  pose proof (place_and_fill_eq cfg (market_order id s 0) tick) as He.
  split; [|split].
  - change (position (place_and_fill cfg (market_order id s 0) tick))
      with (position (set_orders (place_and_fill cfg (market_order id s 0) tick)
                        (orders (initial_handle cfg))
                        (order_count (initial_handle cfg)))).
    rewrite He, spec_fill_one_market, execute_fill_position.
    destruct s; reflexivity.
  - change (avg_entry_price (place_and_fill cfg (market_order id s 0) tick))
      with (avg_entry_price
              (set_orders (place_and_fill cfg (market_order id s 0) tick)
                 (orders (initial_handle cfg))
                 (order_count (initial_handle cfg)))).
    rewrite He, spec_fill_one_market. apply execute_fill_open. reflexivity.
  - unfold place_and_fill, run. cbn [fold_left apply_operation].
    destruct (engine_step_tick_live
                (engine_place_order (initial_handle cfg) (market_order id s 0)).2
                tick) as [-> _].
    pose proof (engine_place_order_result (initial_handle cfg)
                  (market_order id s 0) (initial_handle_well_formed cfg)) as Hp.
    destruct (Nat.leb_spec MAX_OPEN_ORDERS (order_count (initial_handle cfg)))
      as [Hfull|_]; [unfold MAX_OPEN_ORDERS in Hfull; simpl in Hfull; lia|].
    destruct Hp as (_ & P2 & _).
    unfold live_orders. rewrite P2. reflexivity.
Qed.

(** ** Conversions of 64-bit integers are finite *)

Lemma shr_1_bounds (mrs : shr_record) :
  0 <= shr_m mrs -> 0 <= shr_m (shr_1 mrs) <= shr_m mrs.
Proof.
  destruct mrs as [m r s]. destruct m as [|p|p]; simpl; intros Hm.
  - lia.
  - destruct p; simpl; lia.
  - lia.
Qed.

Lemma iter_pos_shr_1_bounds (p : positive) :
  forall mrs : shr_record,
    0 <= shr_m mrs -> 0 <= shr_m (iter_pos shr_1 p mrs) <= shr_m mrs.
Proof.
  induction p as [p IH|p IH|]; intros mrs Hm; simpl.
  - pose proof (shr_1_bounds mrs Hm) as H1.
    pose proof (IH (shr_1 mrs) ltac:(lia)) as H2.
    pose proof (IH (iter_pos shr_1 p (shr_1 mrs)) ltac:(lia)) as H3. lia.
  - pose proof (IH mrs Hm) as H1.
    pose proof (IH (iter_pos shr_1 p mrs) ltac:(lia)) as H2. lia.
  - apply shr_1_bounds, Hm.
Qed.

Lemma shr_bounds (mrs : shr_record) (e n : Z) :
  0 <= shr_m mrs ->
  0 <= shr_m (shr mrs e n).1 <= shr_m mrs
  /\ (shr mrs e n).2 = Z.max e (e + n).
Proof.
  intros Hm. unfold shr. destruct n as [|p|p]; simpl.
  - split; lia.
  - split; [apply iter_pos_shr_1_bounds, Hm|lia].
  - split; lia.
Qed.

Lemma shr_record_of_loc_m (m : Z) (l : location) :
  shr_m (shr_record_of_loc m l) = m.
Proof. destruct l as [|[| |]]; reflexivity. Qed.

Lemma round_nearest_even_bounds (m : Z) (l : location) :
  m <= round_nearest_even m l <= m + 1.
Proof.
  unfold round_nearest_even. destruct l as [|[| |]]; try lia.
  destruct (Z.even m); lia.
Qed.

Lemma digits2_pos_bound (p : positive) :
  forall k : Z, 0 <= k -> Z.pos p < 2 ^ k -> Z.pos (digits2_pos p) <= k.
Proof.
  induction p as [p IH|p IH|]; intros k Hk Hp; simpl.
  - assert (1 <= k) by (destruct (Z.eq_dec k 0) as [->|]; [simpl in Hp; lia|lia]).
    replace k with (Z.succ (k - 1)) in Hp by lia.
    rewrite Z.pow_succ_r in Hp by lia.
    pose proof (IH (k - 1) ltac:(lia) ltac:(lia)). lia.
  - assert (1 <= k) by (destruct (Z.eq_dec k 0) as [->|]; [simpl in Hp; lia|lia]).
    replace k with (Z.succ (k - 1)) in Hp by lia.
    rewrite Z.pow_succ_r in Hp by lia.
    pose proof (IH (k - 1) ltac:(lia) ltac:(lia)). lia.
  - assert (1 <= k) by (destruct (Z.eq_dec k 0) as [->|]; [simpl in Hp; lia|lia]).
    lia.
Qed.

Lemma Zdigits2_bound (m k : Z) :
  0 <= k -> 0 <= m < 2 ^ k -> 0 <= Zdigits2 m <= k.
Proof.
  intros Hk Hm. destruct m as [|p|p]; simpl; [lia| |lia].
  split; [lia|]. apply digits2_pos_bound; lia.
Qed.

(** Rounding a mantissa below [2^116] at an exponent that is not positive
    gives a finite number. *)
Lemma binary_round_aux_finite (s : bool) (m e : Z) (l : location) :
  0 <= m < 2 ^ 116 -> e <= 0 ->
  is_finite (binary_round_aux prec emax s m e l) = true.
Proof.
  intros Hm He. unfold binary_round_aux, shr_fexp.
  set (n1 := fexp prec emax (Zdigits2 m + e) - e).
  pose proof (shr_bounds (shr_record_of_loc m l) e n1) as H1.
  rewrite shr_record_of_loc_m in H1. specialize (H1 ltac:(lia)).
  destruct (shr (shr_record_of_loc m l) e n1) as [mrs' e'].
  cbn [fst snd] in H1. destruct H1 as [Hm1 He1].
  pose proof (round_nearest_even_bounds (shr_m mrs') (loc_of_shr_record mrs')) as Hr.
  set (m2 := round_nearest_even (shr_m mrs') (loc_of_shr_record mrs')) in *.
  set (n2 := fexp prec emax (Zdigits2 m2 + e') - e').
  pose proof (shr_bounds (shr_record_of_loc m2 loc_Exact) e' n2) as H2.
  rewrite shr_record_of_loc_m in H2. specialize (H2 ltac:(lia)).
  destruct (shr (shr_record_of_loc m2 loc_Exact) e' n2) as [mrs'' e''].
  cbn [fst snd] in H2. destruct H2 as [Hm2 He2].
  pose proof (Zdigits2_bound m 116 ltac:(lia) Hm) as Hd1.
  assert (Hm2' : 0 <= m2 < 2 ^ 117).
  { replace (2 ^ 117) with (2 * 2 ^ 116) by reflexivity. lia. }
  pose proof (Zdigits2_bound m2 117 ltac:(lia) Hm2') as Hd2.
  assert (Hn1 : e + n1 <= 63).
  { subst n1. unfold fexp, SpecFloat.emin, prec, emax. lia. }
  assert (Hn2 : e' + n2 <= 127).
  { subst n2. unfold fexp, SpecFloat.emin, prec, emax. lia. }
  destruct (shr_m mrs'') as [|p|p] eqn:Hs; [reflexivity| |lia].
  destruct (Z.leb_spec e'' (emax - prec)) as [_|Hbig]; [reflexivity|].
  unfold emax, prec in Hbig. lia.
Qed.

Lemma iter_xO_value (p : positive) (d : positive) :
  Z.pos (Pos.iter xO p d) = Z.pos p * 2 ^ Z.pos d.
Proof.
  induction d as [|d IH] using Pos.peano_ind.
  - simpl. lia.
  - rewrite Pos.iter_succ, Pos2Z.inj_succ, Z.pow_succ_r by lia.
    rewrite Pos2Z.inj_xO, IH. lia.
Qed.

Lemma binary_round_int64_finite (s : bool) (p : positive) :
  Z.pos p <= 2 ^ 63 -> is_finite (binary_round prec emax s p 0) = true.
Proof.
  intros Hp. unfold binary_round, shl_align.
  set (ex' := fexp prec emax (Z.pos (digits2_pos p) + 0)).
  assert (Hex : - 52 <= ex').
  { subst ex'. unfold fexp, prec. pose proof (Pos2Z.is_pos (digits2_pos p)). lia. }
  destruct (ex' - 0) as [|d|d] eqn:Hd.
  - apply binary_round_aux_finite; [|lia].
    split; [lia|]. apply Z.le_lt_trans with (2 ^ 63); [exact Hp|reflexivity].
  - apply binary_round_aux_finite; [|lia].
    split; [lia|]. apply Z.le_lt_trans with (2 ^ 63); [exact Hp|reflexivity].
  - apply binary_round_aux_finite; [|lia].
    rewrite iter_xO_value. split; [lia|].
    assert (Hdd : Z.pos d <= 52) by lia.
    assert (Hpow : 2 ^ Z.pos d <= 2 ^ 52) by (apply Z.pow_le_mono_r; lia).
    replace (2 ^ 116) with (2 ^ 64 * 2 ^ 52) by reflexivity.
    assert (Z.pos p < 2 ^ 64)
      by (apply Z.le_lt_trans with (2 ^ 63); [exact Hp|reflexivity]).
    assert (0 < 2 ^ Z.pos d) by (apply Z.pow_pos_nonneg; lia).
    nia.
Qed.

(** The conversion of a 64-bit integer to [double] never gives an
    infinity or a NaN. *)
Lemma of_int64_finite (z : Z) :
  Int64.in_range z -> is_finite (of_int64 z) = true.
Proof.
  unfold Int64.in_range, Int64.min_signed, Int64.max_signed, of_int64,
    binary_normalize.
  intros Hz. destruct z as [|p|p]; [reflexivity| |];
    apply binary_round_int64_finite; lia.
Qed.

Lemma fmul_finite_zero (x y : double) :
  is_finite x = true -> is_zero y = true -> is_zero (fmul x y) = true.
Proof.
  destruct x as [sx|sx| |sx mx ex], y as [sy|sy| |sy my ey];
    try discriminate; reflexivity.
Qed.

(** With a spread of zero basis points a fill price is the base price. *)
Lemma apply_spread_zero_bps (h : engine_handle_t) (price_tick : Z)
    (side : side_t) :
  is_zero (spread_bps (config h)) = true ->
  Int64.in_range price_tick ->
  apply_spread h price_tick side = price_tick.
Proof.
  intros Hz Hp. unfold apply_spread.
  assert (Hm : is_zero (fdiv (spread_bps (config h)) ten_thousand) = true).
  { destruct (spread_bps (config h)) as [s|s| |s m e]; try discriminate.
    reflexivity. }
  pose proof (fmul_finite_zero (of_int64 price_tick) _
                (of_int64_finite price_tick Hp) Hm) as Hs.
  destruct (fmul (of_int64 price_tick)
              (fdiv (spread_bps (config h)) ten_thousand))
    as [s|s| |s m e]; try discriminate.
  cbn [ceil to_int64]. unfold Int64.add, Int64.sub.
  destruct side; rewrite ?Z.add_0_r, ?Z.sub_0_r; apply wrap_in_range, Hp.
Qed.

(** X15.  With a spread of zero basis points (of either sign of zero) a
    fill price is the base price itself, on both sides, for every base
    price of the 64-bit range: the conversion of the price to [double] is
    finite, so its product with the zero multiplier is a zero and not a
    NaN. *)
Theorem zero_spread_fills_at_base (h : engine_handle_t) (price_tick : Z) :
  is_zero (spread_bps (config h)) = true ->
  Int64.in_range price_tick ->
  apply_spread h price_tick SIDE_BUY = price_tick
  /\ apply_spread h price_tick SIDE_SELL = price_tick.
Proof.
  intros Hz Hp. split; apply apply_spread_zero_bps; assumption.
Qed.

Lemma zero_spread_fills_at_base_witness :
  apply_spread (initial_handle sample_config) 100 SIDE_BUY = 100
  /\ apply_spread (initial_handle sample_config) 100 SIDE_SELL = 100.
Proof.
  apply (zero_spread_fills_at_base (initial_handle sample_config) 100).
  - reflexivity.
  - unfold Int64.in_range, Int64.min_signed, Int64.max_signed. lia.
Defined.

(** ** A round trip at one price *)

Lemma fsub_self (x : double) : is_finite x = true -> fsub x x = zero.
Proof.
  destruct x as [s|s| |s m e]; try discriminate; intros _.
  - destruct s; reflexivity.
  - unfold fsub, SFsub. rewrite Z.sub_diag. reflexivity.
Qed.

(** A market order placed on an empty book and the next tick: the fill is
    executed on the account at the price of the tick with the spread, and
    the book is empty again. *)
Lemma place_market_and_step (h : engine_handle_t) (id : Z) (s : side_t)
    (q : Z) (tick : tick_event_t) :
  well_formed h -> order_count h = 0%nat ->
  set_orders (run [OpPlace (market_order id s q); OpStep tick] h)
    (orders h) (order_count h)
  = execute_fill (set_clock h (tick_ts_ms tick) (tick_price_tick tick))
      (market_order id s q) (apply_spread h (tick_price_tick tick) s)
  /\ order_count (run [OpPlace (market_order id s q); OpStep tick] h) = 0%nat
  /\ well_formed (run [OpPlace (market_order id s q); OpStep tick] h).
Proof.
  intros Hwf Hc. unfold run. cbn [fold_left apply_operation].
  pose proof (engine_place_order_result h (market_order id s q) Hwf) as Hp.
  destruct (Nat.leb_spec MAX_OPEN_ORDERS (order_count h)) as [Hfull|_];
    [unfold MAX_OPEN_ORDERS in Hfull; lia|].
  destruct Hp as (_ & P2 & _ & P4 & P5).
  set (hp := (engine_place_order h (market_order id s q)).2) in *.
  assert (Hu : used_slots hp = [placed (market_order id s q)]).
  { rewrite P2. unfold used_slots. rewrite Hc. reflexivity. }
  split; [|split].
  - rewrite <- (set_orders_twice (engine_step_tick hp tick).2
                  (orders hp) (orders h) (order_count hp) (order_count h)).
    rewrite engine_step_tick_account, Hu.
    rewrite <- spec_scan_set_orders.
    replace (set_orders (set_clock hp (tick_ts_ms tick) (tick_price_tick tick))
               (orders h) (order_count h))
      with (set_clock h (tick_ts_ms tick) (tick_price_tick tick))
      by (rewrite <- P4 at 1; reflexivity).
    reflexivity.
  - destruct (engine_step_tick_slots hp tick) as [-> _]. rewrite Hu. reflexivity.
  - apply engine_step_tick_well_formed, P5.
Qed.

Lemma run_app (ops ops' : list operation) (h : engine_handle_t) :
  run (ops ++ ops') h = run ops' (run ops h).
Proof. apply fold_left_app. Qed.

Lemma round_trip_eq (cfg : config_t) (id id' : Z) (s : side_t) (q : Z)
    (t t' : tick_event_t) :
  round_trip cfg id id' s q t t'
  = run [OpPlace (market_order id' (other_side s) q); OpStep t']
      (run [OpPlace (market_order id s q); OpStep t] (initial_handle cfg)).
Proof.
  exact (run_app [OpPlace (market_order id s q); OpStep t]
           [OpPlace (market_order id' (other_side s) q); OpStep t']
           (initial_handle cfg)).
Qed.

(** X16.  On a new engine with a spread of zero, a market order of
    positive quantity filled at a tick and the market order of the same
    quantity on the other side filled at a tick of the same price leave
    the account flat with exactly nothing realized: position 0, entry
    price 0, realized and unrealized P&L 0 and an empty book, whatever
    the fees, for a long and for a short round trip, provided the value
    of the quantity at that price is finite in [double]. *)
Theorem round_trip_at_one_price (cfg : config_t) (id id' : Z) (s : side_t)
    (q : Z) (t t' : tick_event_t) :
  is_zero (spread_bps cfg) = true ->
  tick_price_tick t' = tick_price_tick t ->
  Int64.in_range (tick_price_tick t) ->
  0 < q <= Int64.max_signed ->
  is_finite (value_at cfg q (tick_price_tick t)) = true ->
  snap_position (engine_get_snapshot (round_trip cfg id id' s q t t')) = 0
  /\ snap_avg_entry_price (engine_get_snapshot (round_trip cfg id id' s q t t'))
     = zero
  /\ snap_realized_pnl (engine_get_snapshot (round_trip cfg id id' s q t t'))
     = zero
  /\ snap_unrealized_pnl (engine_get_snapshot (round_trip cfg id id' s q t t'))
     = zero
  /\ order_count (round_trip cfg id id' s q t t') = 0%nat.
Proof.
  intros Hz Ht Hp Hq Hfin.
  set (p := tick_price_tick t) in *.
  rewrite round_trip_eq.
  set (h0 := initial_handle cfg).
  destruct (place_market_and_step h0 id s q t (initial_handle_well_formed cfg)
              eq_refl) as (E1 & C1 & W1).
  set (h1 := run [OpPlace (market_order id s q); OpStep t] h0) in *.
  destruct (place_market_and_step h1 id' (other_side s) q t' W1 C1)
    as (E2 & C2 & _).
  set (h2 := run [OpPlace (market_order id' (other_side s) q); OpStep t'] h1) in *.
  fold p in E1. rewrite Ht in E2. fold p in E2.
  (* the account after the opening fill *)
  assert (Hs0 : apply_spread h0 p s = p) by (apply apply_spread_zero_bps; assumption).
  rewrite Hs0 in E1.
  set (c0 := set_clock h0 (tick_ts_ms t) p) in *.
  assert (Hpos1 : position h1 = spec_delta s q).
  { pose proof (f_equal position E1) as H. cbn [position set_orders] in H.
    rewrite H, execute_fill_position.
    change (position c0) with 0. rewrite Z.add_0_l.
    apply wrap_in_range.
    unfold Int64.in_range, Int64.min_signed, Int64.max_signed in *.
    unfold spec_delta. cbn [market_order order_side order_qty].
    destruct s; lia. }
  destruct (execute_fill_open c0 (market_order id s q) p eq_refl) as [Ha Hr].
  assert (Havg1 : avg_entry_price h1 = of_int64 p).
  { pose proof (f_equal avg_entry_price E1) as H.
    cbn [avg_entry_price set_orders] in H. rewrite H. exact Ha. }
  assert (Hreal1 : realized_pnl h1 = zero).
  { pose proof (f_equal realized_pnl E1) as H.
    cbn [realized_pnl set_orders] in H. rewrite H, Hr. reflexivity. }
  assert (Hcfg1 : config h1 = cfg).
  { pose proof (f_equal config E1) as H. cbn [config set_orders] in H.
    rewrite H, execute_fill_config. reflexivity. }
  (* the closing fill *)
  assert (Hs1 : apply_spread h1 p (other_side s) = p).
  { apply apply_spread_zero_bps; [rewrite Hcfg1|]; assumption. }
  rewrite Hs1 in E2.
  set (c1 := set_clock h1 (tick_ts_ms t') p) in *.
  assert (Hold : Int64.min_signed < position c1 <= Int64.max_signed).
  { change (position c1) with (position h1). rewrite Hpos1.
    unfold spec_delta, Int64.min_signed, Int64.max_signed in *.
    destruct s; lia. }
  assert (Hopp : (0 < position c1
                  /\ order_side (market_order id' (other_side s) q) = SIDE_SELL)
                 \/ (position c1 < 0
                     /\ order_side (market_order id' (other_side s) q) = SIDE_BUY)).
  { change (position c1) with (position h1). rewrite Hpos1.
    unfold spec_delta. destruct s; [left|right]; split; try reflexivity; lia. }
  assert (Hle : order_qty (market_order id' (other_side s) q)
                <= Z.abs (position c1)).
  { change (position c1) with (position h1). rewrite Hpos1.
    unfold spec_delta. cbn [market_order order_qty]. destruct s; lia. }
  destruct (execute_fill_reduce c1 (market_order id' (other_side s) q) p
              Hold (proj1 Hq) Hopp Hle) as (R1 & R2 & R3).
  assert (Hflat : position c1
                  + spec_delta (order_side (market_order id' (other_side s) q))
                      (order_qty (market_order id' (other_side s) q)) = 0).
  { change (position c1) with (position h1). rewrite Hpos1.
    unfold spec_delta. cbn [market_order order_side order_qty].
    destruct s; cbn [other_side]; lia. }
  rewrite Hflat in R1, R3.
  assert (Hpos2 : position h2 = 0).
  { pose proof (f_equal position E2) as H. cbn [position set_orders] in H.
    rewrite H. exact R1. }
  unfold engine_get_snapshot.
  cbn [snap_position snap_avg_entry_price snap_realized_pnl snap_unrealized_pnl].
  split; [exact Hpos2|]. split; [|split; [|split]].
  - pose proof (f_equal avg_entry_price E2) as H.
    cbn [avg_entry_price set_orders] in H. rewrite H. exact R3.
  - pose proof (f_equal realized_pnl E2) as H.
    cbn [realized_pnl set_orders] in H. rewrite H, R2.
    change (realized_pnl c1) with (realized_pnl h1).
    change (avg_entry_price c1) with (avg_entry_price h1).
    change (config c1) with (config h1).
    rewrite Hreal1, Havg1, Hcfg1. unfold spec_realized.
    cbn [market_order order_qty]. fold (value_at cfg q p).
    rewrite fsub_self by exact Hfin.
    destruct (0 <? position c1); reflexivity.
  - unfold calculate_unrealized_pnl. rewrite Hpos2. reflexivity.
  - exact C2.
Qed.

Lemma round_trip_at_one_price_witness :
  snap_position
    (engine_get_snapshot
       (round_trip (spread_config 0) 1 2 SIDE_SELL 1500000
          (sample_tick 1 100) (sample_tick 2 100))) = 0
  /\ snap_realized_pnl
       (engine_get_snapshot
          (round_trip (spread_config 0) 1 2 SIDE_SELL 1500000
             (sample_tick 1 100) (sample_tick 2 100))) = zero.
Proof.
  destruct (round_trip_at_one_price (spread_config 0) 1 2 SIDE_SELL
              1500000 (sample_tick 1 100) (sample_tick 2 100))
    as (H1 & _ & H3 & _).
  - reflexivity.
  - reflexivity.
  - unfold Int64.in_range, Int64.min_signed, Int64.max_signed. simpl. lia.
  - unfold Int64.max_signed. lia.
  - vm_compute. reflexivity.
  - split; [exact H1|exact H3].
Defined.

(** ** A limit order on an empty book *)

Lemma place_and_step (h : engine_handle_t) (o : order_t) (tick : tick_event_t) :
  well_formed h -> order_count h = 0%nat ->
  set_orders (run [OpPlace o; OpStep tick] h) (orders h) (order_count h)
  = spec_fill_one tick
      (set_clock h (tick_ts_ms tick) (tick_price_tick tick)) (placed o)
  /\ live_orders (run [OpPlace o; OpStep tick] h)
     = spec_survivors tick [placed o].
Proof.
  intros Hwf Hc. unfold run. cbn [fold_left apply_operation].
  pose proof (engine_place_order_result h o Hwf) as Hp.
  destruct (Nat.leb_spec MAX_OPEN_ORDERS (order_count h)) as [Hfull|_];
    [unfold MAX_OPEN_ORDERS in Hfull; lia|].
  destruct Hp as (_ & P2 & _ & P4 & _).
  set (hp := (engine_place_order h o).2) in *.
  assert (Hu : used_slots hp = [placed o]).
  { rewrite P2. unfold used_slots. rewrite Hc. reflexivity. }
  split.
  - rewrite <- (set_orders_twice (engine_step_tick hp tick).2
                  (orders hp) (orders h) (order_count hp) (order_count h)).
    rewrite engine_step_tick_account, Hu.
    rewrite <- spec_scan_set_orders.
    replace (set_orders (set_clock hp (tick_ts_ms tick) (tick_price_tick tick))
               (orders h) (order_count h))
      with (set_clock h (tick_ts_ms tick) (tick_price_tick tick))
      by (rewrite <- P4 at 1; reflexivity).
    reflexivity.
  - destruct (engine_step_tick_live hp tick) as [-> _].
    unfold live_orders. rewrite Hu. reflexivity.
Qed.

(** X17.  A limit order placed on an empty book and the next tick.  A buy
    is eligible when the price of the tick is at or below its limit, a
    sell when it is at or above.  An eligible order fills at its own limit
    price with the spread, however much better the price of the tick is,
    and leaves the book; an order that is not eligible stays live and the
    tick changes the clock and the last price only. *)
Theorem limit_order_fills_at_limit_price (h : engine_handle_t) (id : Z)
    (s : side_t) (q limit : Z) (tick : tick_event_t) :
  well_formed h -> order_count h = 0%nat ->
  if match s with
     | SIDE_BUY => tick_price_tick tick <=? limit
     | SIDE_SELL => limit <=? tick_price_tick tick
     end
  then
    set_orders (run [OpPlace (limit_order id s q limit); OpStep tick] h)
      (orders h) (order_count h)
    = execute_fill (set_clock h (tick_ts_ms tick) (tick_price_tick tick))
        (limit_order id s q limit) (apply_spread h limit s)
    /\ live_orders (run [OpPlace (limit_order id s q limit); OpStep tick] h) = []
  else
    set_orders (run [OpPlace (limit_order id s q limit); OpStep tick] h)
      (orders h) (order_count h)
    = set_clock h (tick_ts_ms tick) (tick_price_tick tick)
    /\ live_orders (run [OpPlace (limit_order id s q limit); OpStep tick] h)
       = [placed (limit_order id s q limit)].
Proof.
  intros Hwf Hc.
  destruct (place_and_step h (limit_order id s q limit) tick Hwf Hc) as [-> ->].
  unfold spec_fill_one, spec_survivors, spec_fills.
  cbn [placed active order andb filter].
  assert (He : spec_eligible (limit_order id s q limit) tick
               = match s with
                 | SIDE_BUY => tick_price_tick tick <=? limit
                 | SIDE_SELL => limit <=? tick_price_tick tick
                 end) by (destruct s; reflexivity).
  rewrite <- He.
  destruct (spec_eligible (limit_order id s q limit) tick) eqn:E.
  - split; [reflexivity|].
    rewrite filter_cons_False, filter_nil; [reflexivity|].
    cbn [placed active order]. rewrite E. intros [_ H]. discriminate H.
  - split; [reflexivity|].
    rewrite filter_cons_True, filter_nil; [reflexivity|].
    cbn [placed active order]. rewrite E. split; reflexivity.
Qed.

Lemma limit_order_fills_at_limit_price_witness :
  set_orders
    (run [OpPlace (limit_order 7 SIDE_BUY 1000000 100); OpStep (sample_tick 1 90)]
       (initial_handle sample_config))
    (orders (initial_handle sample_config))
    (order_count (initial_handle sample_config))
  = execute_fill (set_clock (initial_handle sample_config) 1 90)
      (limit_order 7 SIDE_BUY 1000000 100)
      (apply_spread (initial_handle sample_config) 100 SIDE_BUY)
  /\ live_orders
       (run [OpPlace (limit_order 7 SIDE_BUY 1000000 100);
             OpStep (sample_tick 1 90)]
          (initial_handle sample_config)) = [].
Proof.
  exact (limit_order_fills_at_limit_price (initial_handle sample_config) 7
           SIDE_BUY 1000000 100 (sample_tick 1 90)
           (initial_handle_well_formed sample_config) eq_refl).
Defined.

(** ** Ticks are never rejected *)

(** X18.  [engine_step_tick] returns 0 for every handle and every tick and
    takes the timestamp and the price of the tick as the clock and the
    last price, which the snapshot then reports; no tick is refused, be
    its timestamp earlier than the clock or its price or quantity zero or
    negative, and the configuration is unchanged. *)
Theorem step_tick_accepts_every_tick (h : engine_handle_t) (tick : tick_event_t) :
  (engine_step_tick h tick).1 = 0
  /\ current_ts_ms (engine_step_tick h tick).2 = tick_ts_ms tick
  /\ last_tick_price (engine_step_tick h tick).2 = tick_price_tick tick
  /\ snap_ts_ms (engine_get_snapshot (engine_step_tick h tick).2) = tick_ts_ms tick
  /\ config (engine_step_tick h tick).2 = config h.
Proof.
  rewrite engine_step_tick_eq.
  cbn [fst snd current_ts_ms last_tick_price config set_orders
       engine_get_snapshot snap_ts_ms].
  destruct (spec_scan_clock tick (used_slots h)
              (set_clock h (tick_ts_ms tick) (tick_price_tick tick))) as [-> ->].
  rewrite spec_scan_config.
  repeat split.
Qed.
